(** * costday: the expense-tracking API server, embedded in Rocq

    The development follows the Python package module by module:
    [models] (the tables of models.py), [schemas] (the request bodies of
    schemas.py), [auth] (password hashing and bearer tokens), [crud]
    (apiserver/crud.py) and [main] (the route handlers of main.py).

    A SQLAlchemy session over the relational store is modelled by explicit
    state passing: a computation of type [M A] takes the committed content
    of the tables and returns the new content together with either a value
    or the Python exception raised.  A commit that violates a constraint
    declared in models.py raises [IntegrityError] and leaves the tables as
    they were.

    The store holds signed 64-bit integers.  Its rows carry no other,
    and the driver raises [OverflowError] when a query binds a Python
    integer outside that range: the functions of crud.py that bind an
    integer sent by the client, the pagination window and the integer
    fields of a new category, raise it; a lookup by id is given as the
    row it selects, for an id within the range, and the route handlers
    that take an id of type [int] raise the error for any other.

    The constraints modelled are the primary keys and the unique columns.
    Foreign keys are carried as plain nullable columns: whether the engine
    enforces them is set up in costday/database.py, which is not among the
    sources, and the embedding does not enforce them. *)

From Stdlib Require Import ZArith List String Ascii Bool Lia QArith.
Import ListNotations.
Open Scope string_scope.
Open Scope list_scope.
Open Scope Z_scope.

Set Implicit Arguments.

(** ** Python exceptions and results

    [OverflowError] is what the driver of the store raises for an integer
    it cannot bind, [IntegrityError] what a commit raises for a violated
    constraint, and [ValidationError] what a route raises for a returned
    value its response model does not accept. *)

Inductive exn : Type :=
| TypeError
| AttributeError
| ValueError
| OverflowError
| ValidationError
| IntegrityError
| JWTError
| HTTPException (status_code : Z) (detail : string).

Inductive result (A : Type) : Type :=
| Ok (a : A)
| Raise (e : exn).

Arguments Ok {A} a.
Arguments Raise {A} e.

(** A POSIX timestamp in seconds stands for [datetime]; a duration in
    seconds stands for [timedelta]. *)
Definition datetime := Z.
Definition timedelta := Z.

(** A stored password hash as the hashing scheme reads it back: a string in
    the scheme's format, carrying the salt and the digest, or any other
    string. *)
Inductive hash_string : Type :=
| Crypt (salt digest : string)
| Unparsable (raw : string).

(** ** models.py *)

Module models.

Record User : Type := mkUser
  { User_id : Z;
    User_email : string;
    User_username : string;
    User_hashed_password : hash_string }.

Record Book : Type := mkBook
  { Book_id : Z;
    Book_name : string }.

(** [category_id] and [book_id] are nullable foreign keys: the ORM sets
    them to NULL when the parent row is deleted through the session. *)
Record Record_ : Type := mkRecord
  { Record_id : Z;
    Record_amount : Q;
    Record_note : option string;
    Record_category_id : option Z;
    Record_book_id : option Z;
    Record_add_by : Z;
    Record_add_at : datetime }.

Record Category : Type := mkCategory
  { Category_id : Z;
    Category_parent_id : option Z;
    Category_icon : Z;
    Category_cn_name : string;
    Category_en_name : string }.

(** The attributes a [Record] instance has: its columns and its two
    relationships.  The declarative constructor accepts exactly these
    names as keyword arguments. *)
Definition Record_attrs : list string :=
  ["id"; "amount"; "note"; "category_id"; "book_id"; "add_by"; "add_at";
   "book"; "category"].

(** The committed content of the store: the four mapped tables and the
    association table [user_book] with its composite primary key. *)
Record DB : Type := mkDB
  { users : list User;
    books : list Book;
    categories : list Category;
    records : list Record_;
    user_book : list (Z * Z) }.

Definition empty : DB := mkDB [] [] [] [] [].

Definition set_users (db : DB) (us : list User) : DB :=
  mkDB us (books db) (categories db) (records db) (user_book db).
Definition set_books (db : DB) (bs : list Book) : DB :=
  mkDB (users db) bs (categories db) (records db) (user_book db).
Definition set_categories (db : DB) (cs : list Category) : DB :=
  mkDB (users db) (books db) cs (records db) (user_book db).
Definition set_records (db : DB) (rs : list Record_) : DB :=
  mkDB (users db) (books db) (categories db) rs (user_book db).
Definition set_user_book (db : DB) (ms : list (Z * Z)) : DB :=
  mkDB (users db) (books db) (categories db) (records db) ms.

End models.

(** ** schemas.py *)

Module schemas.

Record UserCreate : Type := mkUserCreate
  { email : string;
    username : string;
    password : string }.

Record RecordCreate : Type := mkRecordCreate
  { amount : Q;
    note : option string;
    category_id : Z;
    book_id : Z;
    type_ : Z }.

(** The keys of [record.dict()], one per field of [RecordBase]. *)
Definition RecordCreate_keys : list string :=
  ["amount"; "note"; "category_id"; "book_id"; "type_"].

Record CategoryCreate : Type := mkCategoryCreate
  { parent_id : option Z;
    icon : Z;
    cn_name : string;
    en_name : string }.

Record User : Type := mkUser
  { User_email : string;
    User_username : string;
    User_id : Z }.

Record BookCreate : Type := mkBookCreate
  { name : string;
    members : list User }.

Record UserBookCreate : Type := mkUserBookCreate
  { ub_user_id : Z;
    ub_book_id : Z }.

End schemas.

(** ** The session monad *)

Definition M (A : Type) : Type := models.DB -> models.DB * result A.

Definition ret {A} (a : A) : M A := fun db => (db, Ok a).
Definition raise {A} (e : exn) : M A := fun db => (db, Raise e).
Definition bind {A B} (m : M A) (k : A -> M B) : M B :=
  fun db =>
    match m db with
    | (db', Ok a) => k a db'
    | (db', Raise e) => (db', Raise e)
    end.
Definition query {A} (q : models.DB -> A) : M A := fun db => (db, Ok (q db)).

Notation "x <- m ;; k" := (bind m (fun x => k))
  (at level 61, m at next level, right associativity).

(** ** Storage primitives *)

Module database.
Import models.

(** The integer primary key given to a new row: one more than the largest
    key in the table, 1 for an empty table. *)
Definition next_id (ids : list Z) : Z := 1 + fold_right Z.max 0 ids.

(** The integers the store holds, and the only ones its driver binds as
    the parameter of a query: the signed 64-bit range.  Binding any other
    Python integer raises [OverflowError]. *)
Definition int64 (i : Z) : bool :=
  (-9223372036854775808 <=? i) && (i <=? 9223372036854775807).

(** OFFSET binds [skip]; a negative OFFSET skips no row. *)
Definition offset {A} (skip : Z) (rows : list A) : result (list A) :=
  if int64 skip then Ok (skipn (Z.to_nat skip) rows)
  else Raise OverflowError.

(** LIMIT binds [n]; a negative LIMIT places no bound on the number of
    rows. *)
Definition limit {A} (n : Z) (rows : list A) : result (list A) :=
  if int64 n then Ok (if n <? 0 then rows else firstn (Z.to_nat n) rows)
  else Raise OverflowError.

Definition pair_eqb (p q : Z * Z) : bool :=
  (fst p =? fst q) && (snd p =? snd q).

(** The unique constraints of [users]: primary key, email, username. *)
Definition user_conflicts (u : User) (others : list User) : bool :=
  existsb (fun v => User_id v =? User_id u) others
  || existsb (fun v => String.eqb (User_email v) (User_email u)) others
  || existsb (fun v => String.eqb (User_username v) (User_username u)) others.

End database.

(** ** auth.py and the token library *)

Module auth.

(** The registered claims a token of this service carries. *)
Record payload : Type := mkPayload
  { sub : option string;
    exp : option datetime }.

(** A bearer token as the decoder reads it: a signed set of claims, or a
    string that is not a well-formed token. *)
Inductive token : Type :=
| Jws (claims : payload) (signature : string)
| Garbage (raw : string).

Section Primitives.

(** The adaptive password hash, from salt and password to digest. *)
Variable kdf : string -> string -> string.
(** The symmetric signature of a set of claims under a key. *)
Variable sign : string -> payload -> string.
(** The process-wide signing secret of auth.py. *)
Variable SECRET_KEY : string.

(** Modelled from the spec: costday/auth.py is not among the sources.
    [hash(password)] uses an adaptive algorithm with a freshly
    generated salt baked into the resulting hash string; the salt is
    the randomness the call draws. *)
Definition get_password_hash (salt password : string) : hash_string :=
  Crypt salt (kdf salt password).

(** Modelled from the spec: [verify(password, hash)] is true iff the
    password matches the hash parameters; it raises only on malformed
    hash input. *)
Definition verify_password (plain_password : string)
    (hashed_password : hash_string) : result bool :=
  match hashed_password with
  | Crypt salt digest => Ok (String.eqb (kdf salt plain_password) digest)
  | Unparsable _ => Raise ValueError
  end.

(** The encoder of the token library: the claims with their signature
    under the key. *)
Definition jwt_encode (claims : payload) (key : string) : token :=
  Jws claims (sign key claims).

(** Modelled from the spec: [validate] fails if the signature does not
    verify, if the token is structurally malformed, or if the current
    time is past the encoded expiry.  A token without expiry claim does
    not expire. *)
Definition jwt_decode (t : token) (key : string) (now : datetime)
    : result payload :=
  match t with
  | Garbage _ => Raise JWTError
  | Jws claims signature =>
      if String.eqb signature (sign key claims) then
        match exp claims with
        | Some e => if e <? now then Raise JWTError else Ok claims
        | None => Ok claims
        end
      else Raise JWTError
  end.

(** Modelled from the spec: [issue(subject, ttl)] produces a signed
    token encoding the subject and the absolute expiry time. *)
Definition create_access_token (data_sub : string)
    (expires_delta : timedelta) (now : datetime) : token :=
  jwt_encode (mkPayload (Some data_sub) (Some (now + expires_delta)))
             SECRET_KEY.

End Primitives.

End auth.

(** ** apiserver/crud.py *)

Module crud.
Import models database.

Definition credentials_exception : exn :=
  HTTPException 401 "Could not validate credentials".

Section Crud.

Variable kdf : string -> string -> string.
Variable sign : string -> auth.payload -> string.
Variable SECRET_KEY : string.

(** The method [update] that the four update functions call on a mapped
    row.  models.py does not define it; it can only come from [Base],
    declared in costday/database.py, which is not among the sources.
    Each is a parameter: from the row and the request body to the
    state of the row after the call paired with the value the call
    returns, or the exception raised. *)
Variable User_update :
  User -> schemas.UserCreate -> result (User * option User).
Variable Record_update :
  Record_ -> schemas.RecordCreate -> result (Record_ * option Record_).
Variable Category_update :
  Category -> schemas.CategoryCreate -> result (Category * option Category).
Variable Book_update :
  Book -> schemas.BookCreate -> result (Book * option Book).

(** *** Users *)

(** The row a lookup by id selects, for [user_id] an integer of the
    store ([database.int64]).  The same holds of [get_record],
    [get_category] and [get_book], and of the deletions and updates that
    start with them. *)
Definition get_user (db : DB) (user_id : Z) : option User :=
  find (fun u => User_id u =? user_id) (users db).

Definition get_user_by_email (db : DB) (email : string) : option User :=
  find (fun u => String.eqb (User_email u) email) (users db).

Definition get_user_by_username (db : DB) (username : string)
    : option User :=
  find (fun u => String.eqb (User_username u) username) (users db).

Definition get_users (db : DB) (skip lim : Z) : result (list User) :=
  match offset skip (users db) with
  | Ok rows => limit lim rows
  | Raise e => Raise e
  end.

(** [False] is rendered as [None]. *)
Definition authenticate_user (db : DB) (username password : string)
    : result (option User) :=
  match get_user_by_username db username with
  | None => Ok None
  | Some user =>
      match auth.verify_password kdf password
              (User_hashed_password user) with
      | Raise e => Raise e
      | Ok false => Ok None
      | Ok true => Ok (Some user)
      end
  end.

(** The [try] block of [get_current_user]: the subject of the token, or
    the credentials exception. *)
Definition token_subject (t : auth.token) (now : datetime)
    : result string :=
  match auth.jwt_decode sign t SECRET_KEY now with
  | Raise JWTError => Raise credentials_exception
  | Raise e => Raise e
  | Ok payload =>
      match auth.sub payload with
      | None => Raise credentials_exception
      | Some username => Ok username
      end
  end.

Definition get_current_user (db : DB) (t : auth.token) (now : datetime)
    : result User :=
  match token_subject t now with
  | Raise e => Raise e
  | Ok username =>
      match get_user_by_username db username with
      | None => Raise credentials_exception
      | Some user => Ok user
      end
  end.

(** [db.add; db.commit; db.refresh] on a new user: the unique
    constraints on email and username are checked by the store.  [salt]
    is the randomness the password hash draws. *)
Definition create_user (user : schemas.UserCreate) (salt : string)
    : M User :=
  fun db =>
    let db_user :=
      mkUser (next_id (map User_id (users db)))
             (schemas.email user) (schemas.username user)
             (auth.get_password_hash kdf salt (schemas.password user)) in
    if user_conflicts db_user (users db) then (db, Raise IntegrityError)
    else (set_users db (users db ++ [db_user]), Ok db_user).

(** Deleting a user through the session also deletes the rows of the
    association table, the [secondary] of the relationship [books], that
    link the user to a stored book. *)
Definition delete_user (user_id : Z) : M unit :=
  db_user <- query (fun db => get_user db user_id) ;;
  match db_user with
  | Some u =>
      fun db =>
        (set_user_book
           (set_users db
              (filter (fun v => negb (User_id v =? User_id u)) (users db)))
           (filter (fun m =>
                      negb ((fst m =? User_id u)
                            && existsb (fun b => Book_id b =? snd m)
                                       (books db)))
                   (user_book db)),
         Ok tt)
  | None => ret tt
  end.

Definition update_user (user_id : Z) (user : schemas.UserCreate)
    : M (option User) :=
  db_user <- query (fun db => get_user db user_id) ;;
  match db_user with
  | Some u =>
      match User_update u user with
      | Raise e => raise e
      | Ok (u', returned) =>
          fun db =>
            let others :=
              filter (fun v => negb (User_id v =? User_id u)) (users db) in
            if user_conflicts u' others then (db, Raise IntegrityError)
            else
              (set_users db
                 (map (fun v => if User_id v =? User_id u then u' else v)
                      (users db)),
               Ok returned)
      end
  | None => ret None
  end.

(** *** Records *)

Definition get_record (db : DB) (record_id : Z) : option Record_ :=
  find (fun r => Record_id r =? record_id) (records db).

Definition in_book (book_id : Z) (r : Record_) : bool :=
  match Record_book_id r with
  | Some b => b =? book_id
  | None => false
  end.

(** The query binds [book_id] with the pagination window. *)
Definition get_records (db : DB) (book_id skip lim : Z)
    : result (list Record_) :=
  if int64 book_id then
    match offset skip (filter (in_book book_id) (records db)) with
    | Ok rows => limit lim rows
    | Raise e => Raise e
    end
  else Raise OverflowError.

(** The new row is built by [models.Record] from the keywords of
    [record.dict()] together with [add_by] and [add_at]: the
    declarative constructor raises [TypeError] for a keyword that is
    not an attribute of the mapped class.  [now] is the reading of
    [datetime.now()]. *)
Definition create_user_record (record : schemas.RecordCreate)
    (user_id : Z) (now : datetime) : M Record_ :=
  if forallb (fun k => existsb (String.eqb k) Record_attrs)
             (schemas.RecordCreate_keys ++ ["add_by"; "add_at"])
  then
    fun db =>
      let db_record :=
        mkRecord (next_id (map Record_id (records db)))
                 (schemas.amount record) (schemas.note record)
                 (Some (schemas.category_id record))
                 (Some (schemas.book_id record))
                 user_id now in
      (set_records db (records db ++ [db_record]), Ok db_record)
  else raise TypeError.

(** A call of [create_user_record] by keyword: [db] is always passed,
    [record] and [user_id] are passed or not.  Python raises
    [TypeError] before the body runs when a parameter without default
    is left unbound. *)
Definition call_create_user_record (record : option schemas.RecordCreate)
    (user_id : option Z) (now : datetime) : M Record_ :=
  match record, user_id with
  | Some r, Some u => create_user_record r u now
  | _, _ => raise TypeError
  end.

Definition delete_record (record_id : Z) : M unit :=
  db_record <- query (fun db => get_record db record_id) ;;
  match db_record with
  | Some r =>
      fun db =>
        (set_records db
           (filter (fun x => negb (Record_id x =? Record_id r))
                   (records db)),
         Ok tt)
  | None => ret tt
  end.

Definition update_record (record_id : Z) (record : schemas.RecordCreate)
    : M (option Record_) :=
  db_record <- query (fun db => get_record db record_id) ;;
  match db_record with
  | Some r =>
      match Record_update r record with
      | Raise e => raise e
      | Ok (r', returned) =>
          fun db =>
            let others :=
              filter (fun x => negb (Record_id x =? Record_id r))
                     (records db) in
            if existsb (fun x => Record_id x =? Record_id r') others
            then (db, Raise IntegrityError)
            else
              (set_records db
                 (map (fun x => if Record_id x =? Record_id r
                                then r' else x)
                      (records db)),
               Ok returned)
      end
  | None => ret None
  end.

(** *** Categories *)

Definition get_categories (db : DB) (skip lim : Z)
    : result (list Category) :=
  match offset skip (categories db) with
  | Ok rows => limit lim rows
  | Raise e => Raise e
  end.

Definition get_category (db : DB) (category_id : Z) : option Category :=
  find (fun c => Category_id c =? category_id) (categories db).

(** The INSERT binds the two integer fields of the request body,
    [icon] and, when it is given, [parent_id]: the commit raises
    [OverflowError] and stores nothing when one of them is not an
    integer of the store. *)
Definition create_category (category : schemas.CategoryCreate)
    : M Category :=
  fun db =>
    let db_category :=
      mkCategory (next_id (map Category_id (categories db)))
                 (schemas.parent_id category) (schemas.icon category)
                 (schemas.cn_name category) (schemas.en_name category) in
    if int64 (schemas.icon category)
       && match schemas.parent_id category with
          | Some parent => int64 parent
          | None => true
          end
    then (set_categories db (categories db ++ [db_category]), Ok db_category)
    else (db, Raise OverflowError).

(** The relationship [records] has no delete cascade: the session
    detaches the records of a deleted category by setting their
    [category_id] to NULL. *)
Definition detach_category (category_id : Z) (r : Record_) : Record_ :=
  match Record_category_id r with
  | Some c =>
      if c =? category_id then
        mkRecord (Record_id r) (Record_amount r) (Record_note r) None
                 (Record_book_id r) (Record_add_by r) (Record_add_at r)
      else r
  | None => r
  end.

Definition delete_category (category_id : Z) : M unit :=
  db_category <- query (fun db => get_category db category_id) ;;
  match db_category with
  | Some c =>
      fun db =>
        (set_records
           (set_categories db
              (filter (fun x => negb (Category_id x =? Category_id c))
                      (categories db)))
           (map (detach_category (Category_id c)) (records db)),
         Ok tt)
  | None => ret tt
  end.

Definition update_category (category_id : Z)
    (category : schemas.CategoryCreate) : M (option Category) :=
  db_category <- query (fun db => get_category db category_id) ;;
  match db_category with
  | Some c =>
      match Category_update c category with
      | Raise e => raise e
      | Ok (c', returned) =>
          fun db =>
            let others :=
              filter (fun x => negb (Category_id x =? Category_id c))
                     (categories db) in
            if existsb (fun x => Category_id x =? Category_id c') others
            then (db, Raise IntegrityError)
            else
              (set_categories db
                 (map (fun x => if Category_id x =? Category_id c
                                then c' else x)
                      (categories db)),
               Ok returned)
      end
  | None => ret None
  end.

(** *** Books *)

Definition get_books (db : DB) (skip lim : Z) : result (list Book) :=
  match offset skip (books db) with
  | Ok rows => limit lim rows
  | Raise e => Raise e
  end.

Definition get_book (db : DB) (book_id : Z) : option Book :=
  find (fun b => Book_id b =? book_id) (books db).

(** [book.dict()] turns the members into dictionaries; assigning a
    dictionary to the relationship [members], which holds mapped
    [User] objects, raises [AttributeError].  An empty list is
    accepted. *)
Definition create_book (book : schemas.BookCreate) : M Book :=
  match schemas.members book with
  | [] =>
      fun db =>
        let db_book :=
          mkBook (next_id (map Book_id (books db))) (schemas.name book) in
        (set_books db (books db ++ [db_book]), Ok db_book)
  | _ :: _ => raise AttributeError
  end.

Definition update_book (book_id : Z) (book : schemas.BookCreate)
    : M (option Book) :=
  db_book <- query (fun db => get_book db book_id) ;;
  match db_book with
  | Some b =>
      match Book_update b book with
      | Raise e => raise e
      | Ok (b', returned) =>
          fun db =>
            let others :=
              filter (fun x => negb (Book_id x =? Book_id b)) (books db) in
            if existsb (fun x => Book_id x =? Book_id b') others
            then (db, Raise IntegrityError)
            else
              (set_books db
                 (map (fun x => if Book_id x =? Book_id b then b' else x)
                      (books db)),
               Ok returned)
      end
  | None => ret None
  end.

Definition detach_book (book_id : Z) (r : Record_) : Record_ :=
  match Record_book_id r with
  | Some b =>
      if b =? book_id then
        mkRecord (Record_id r) (Record_amount r) (Record_note r)
                 (Record_category_id r) None
                 (Record_add_by r) (Record_add_at r)
      else r
  | None => r
  end.

(** Deleting a book detaches its records and deletes the rows of the
    association table that link it to a stored user. *)
Definition delete_book (book_id : Z) : M unit :=
  db_book <- query (fun db => get_book db book_id) ;;
  match db_book with
  | Some b =>
      fun db =>
        (set_user_book
           (set_records
              (set_books db
                 (filter (fun x => negb (Book_id x =? Book_id b))
                         (books db)))
              (map (detach_book (Book_id b)) (records db)))
           (filter (fun m =>
                      negb ((snd m =? Book_id b)
                            && existsb (fun v => User_id v =? fst m)
                                       (users db)))
                   (user_book db)),
         Ok tt)
  | None => ret tt
  end.

(** *** Memberships *)

(** The INSERT into [user_book]: both columns form the primary key. *)
Definition create_user_book (user_book_ : schemas.UserBookCreate)
    : M schemas.UserBookCreate :=
  fun db =>
    let row := (schemas.ub_user_id user_book_,
                schemas.ub_book_id user_book_) in
    if existsb (pair_eqb row) (user_book db)
    then (db, Raise IntegrityError)
    else (set_user_book db (user_book db ++ [row]), Ok user_book_).

(** *** Seeding *)

Fixpoint for_each {A B} (f : A -> M B) (xs : list A) : M unit :=
  match xs with
  | [] => ret tt
  | x :: xs' => _ <- f x ;; for_each f xs'
  end.

(** Each password hash draws its own salt. *)
Definition add_predefined_users (salts : string * string) : M unit :=
  for_each (fun user_data => create_user (fst user_data) (snd user_data))
    [(schemas.mkUserCreate "admin@126.com" "admin" "admin", fst salts);
     (schemas.mkUserCreate "test@126.com" "test" "test", snd salts)].

Definition add_predefined_book : M unit :=
  for_each create_book [schemas.mkBookCreate "default" []].

Definition add_predefined_user_book : M unit :=
  for_each create_user_book
    [schemas.mkUserBookCreate 1 1; schemas.mkUserBookCreate 2 1].

Definition add_predefined_categories : M unit :=
  for_each create_category
    [schemas.mkCategoryCreate None 1 "购物" "Shop";
     schemas.mkCategoryCreate None 2 "服饰" "Dress";
     schemas.mkCategoryCreate None 3 "护肤" "Necessity";
     schemas.mkCategoryCreate None 4 "数码" "Digital";
     schemas.mkCategoryCreate None 5 "应用" "App";
     schemas.mkCategoryCreate None 6 "交通" "Traffic";
     schemas.mkCategoryCreate None 7 "旅行" "Travel";
     schemas.mkCategoryCreate None 8 "美食" "Food";
     schemas.mkCategoryCreate None 9 "娱乐" "Entertainment";
     schemas.mkCategoryCreate (Some 9) 91 "游戏" "Game";
     schemas.mkCategoryCreate (Some 9) 92 "电影" "Movie";
     schemas.mkCategoryCreate None 10 "生活" "Life";
     schemas.mkCategoryCreate None 11 "其他" "Others"].

(** [clock i] is the reading of [datetime.now()] for the record at
    position [i] of the list. *)
Definition add_records_for_test (clock : nat -> datetime) : M unit :=
  for_each (fun r => create_user_record (fst r) 1 (snd r))
    [(schemas.mkRecordCreate (100 # 1) (Some "test") 1 1 1, clock 0%nat);
     (schemas.mkRecordCreate (20 # 1) None 1 1 1, clock 1%nat);
     (schemas.mkRecordCreate (351 # 5) None 2 1 1, clock 2%nat);
     (schemas.mkRecordCreate (21 # 2) (Some "test") 3 1 1, clock 3%nat)].

End Crud.
End crud.

(** ** main.py

    A route handler is given as the function the route calls: what it
    returns or raises on the arguments the request carries.  GET
    /users/me has no handler here: its dependency [get_current_user]
    declares the session as a plain parameter, which the framework
    cannot supply to a dependency, so the route cannot be set up;
    [crud.get_current_user] is given as a function of the session. *)

Module main.
Import models.

Section Main.

Variable kdf : string -> string -> string.
Variable sign : string -> auth.payload -> string.
Variable SECRET_KEY : string.
Variable ACCESS_TOKEN_EXPIRE_MINUTES : Z.
Variable User_update :
  User -> schemas.UserCreate -> result (User * option User).
Variable Record_update :
  Record_ -> schemas.RecordCreate -> result (Record_ * option Record_).

(** A route that declares a response model validates what its function
    returns, after the function has run.  No response model of main.py
    accepts [None]: the request then fails with a validation error,
    which the client receives as HTTP 500.  The four PUT handlers are
    the ones whose function can return [None]; a returned row is passed
    on as it is. *)
Definition respond {A} (m : M (option A)) : M A :=
  fun db =>
    match m db with
    | (db', Ok (Some row)) => (db', Ok row)
    | (db', Ok None) => (db', Raise ValidationError)
    | (db', Raise e) => (db', Raise e)
    end.

(** POST /token.  The token is returned without its ["bearer"] tag. *)
Definition login_for_access_token (db : DB) (username password : string)
    (now : datetime) : result auth.token :=
  match crud.authenticate_user kdf db username password with
  | Raise e => Raise e
  | Ok None => Raise (HTTPException 401 "Incorrect username or password")
  | Ok (Some user) =>
      let access_token_expires := 60 * ACCESS_TOKEN_EXPIRE_MINUTES in
      Ok (auth.create_access_token sign SECRET_KEY (User_username user)
            access_token_expires now)
  end.

(** POST /records: the handler passes [db] and [record] only. *)
Definition create_record (record : schemas.RecordCreate) (now : datetime)
    : M Record_ :=
  crud.call_create_user_record (Some record) None now.

(** GET /records *)
Definition read_records (db : DB) (book_id skip lim : Z)
    : result (list Record_) :=
  crud.get_records db book_id skip lim.

(** PUT /records/{record_id}.  The path parameter carries no type: it
    reaches the query as the text of the path segment, which the store
    compares with the ids as the integer it spells; [record_id] is that
    integer.  No integer is bound, whatever its size.  The same holds of
    the other handlers whose path parameter carries no type. *)
Definition update_record (record_id : Z) (record : schemas.RecordCreate)
    : M Record_ :=
  respond (crud.update_record Record_update record_id record).

(** DELETE /records/{record_id} *)
Definition delete_record (record_id : Z) : M unit :=
  crud.delete_record record_id.

(** POST /users *)
Definition create_user (user : schemas.UserCreate) (salt : string)
    : M User :=
  db_user <- query (fun db => crud.get_user_by_email db (schemas.email user)) ;;
  match db_user with
  | Some _ => raise (HTTPException 400 "Email already registered")
  | None => crud.create_user kdf user salt
  end.

(** PUT /users/{user_id} *)
Definition update_user (user_id : Z) (user : schemas.UserCreate)
    : M User :=
  respond (crud.update_user User_update user_id user).

Variable Category_update :
  Category -> schemas.CategoryCreate -> result (Category * option Category).
Variable Book_update :
  Book -> schemas.BookCreate -> result (Book * option Book).

(** The start-up handler: the seeding stops at the first exception;
    [IntegrityError] is passed over, any other exception is logged, and
    the handler returns normally either way. *)
Definition startup_event (salts : string * string) (clock : nat -> datetime)
    : M unit :=
  fun db =>
    match (_ <- crud.add_predefined_users kdf salts ;;
           _ <- crud.add_predefined_categories ;;
           _ <- crud.add_predefined_book ;;
           _ <- crud.add_predefined_user_book ;;
           crud.add_records_for_test clock) db with
    | (db', Ok _) => (db', Ok tt)
    | (db', Raise IntegrityError) => (db', Ok tt)
    | (db', Raise _) => (db', Ok tt)
    end.

(** GET /records/{record_id} *)
Definition read_record (db : DB) (record_id : Z) : result Record_ :=
  match crud.get_record db record_id with
  | None => Raise (HTTPException 404 "Record not found")
  | Some db_record => Ok db_record
  end.

(** GET /users *)
Definition read_users (db : DB) (skip lim : Z) : result (list User) :=
  crud.get_users db skip lim.

(** GET /users/{user_id}.  [user_id] has type [int] and is bound as
    sent.  An integer outside the range of the store is the id of no
    row, and the lookup raises [OverflowError] in place of selecting
    nothing.  The same holds of the other handlers whose path parameter
    has type [int]. *)
Definition read_user (db : DB) (user_id : Z) : result User :=
  match crud.get_user db user_id with
  | None =>
      if database.int64 user_id
      then Raise (HTTPException 404 "User not found")
      else Raise OverflowError
  | Some db_user => Ok db_user
  end.

(** GET /categories *)
Definition read_categories (db : DB) (skip lim : Z)
    : result (list Category) :=
  crud.get_categories db skip lim.

(** GET /categories/{category_id} *)
Definition read_category (db : DB) (category_id : Z) : result Category :=
  match crud.get_category db category_id with
  | None =>
      if database.int64 category_id
      then Raise (HTTPException 404 "Category not found")
      else Raise OverflowError
  | Some db_category => Ok db_category
  end.

(** POST /categories *)
Definition create_category (category : schemas.CategoryCreate) : M Category :=
  crud.create_category category.

(** PUT /categories/{category_id} *)
Definition update_category (category_id : Z)
    (category : schemas.CategoryCreate) : M Category :=
  respond (crud.update_category Category_update category_id category).

(** DELETE /categories/{category_id} *)
Definition delete_category (category_id : Z) : M unit :=
  crud.delete_category category_id.

(** POST /books *)
Definition create_book (book : schemas.BookCreate) : M Book :=
  crud.create_book book.

(** GET /books *)
Definition read_books (db : DB) (skip lim : Z) : result (list Book) :=
  crud.get_books db skip lim.

(** GET /books/{book_id} *)
Definition read_book (db : DB) (book_id : Z) : result Book :=
  match crud.get_book db book_id with
  | None =>
      if database.int64 book_id
      then Raise (HTTPException 404 "Book not found")
      else Raise OverflowError
  | Some db_book => Ok db_book
  end.

(** PUT /books/{book_id} *)
Definition update_book (book_id : Z) (book : schemas.BookCreate)
    : M Book :=
  fun db =>
    match crud.get_book db book_id with
    | None =>
        if database.int64 book_id
        then respond (crud.update_book Book_update book_id book) db
        else (db, Raise OverflowError)
    | Some _ => respond (crud.update_book Book_update book_id book) db
    end.

(** DELETE /books/{book_id} *)
Definition delete_book (book_id : Z) : M unit :=
  fun db =>
    match crud.get_book db book_id with
    | None =>
        if database.int64 book_id
        then crud.delete_book book_id db
        else (db, Raise OverflowError)
    | Some _ => crud.delete_book book_id db
    end.

End Main.
End main.

(** ** The store as the service drives it *)

Module service.
Import models.

(** The calls that write to the store: the route handlers of main.py and
    the functions of crud.py the start-up seeding calls directly. *)
Inductive request : Type :=
| PostUser (user : schemas.UserCreate) (salt : string)
| CreateUser (user : schemas.UserCreate) (salt : string)
| DeleteUser (user_id : Z)
| UpdateUser (user_id : Z) (user : schemas.UserCreate)
| PostRecord (record : schemas.RecordCreate) (now : datetime)
| CreateUserRecord (record : schemas.RecordCreate) (user_id : Z)
                   (now : datetime)
| DeleteRecord (record_id : Z)
| UpdateRecord (record_id : Z) (record : schemas.RecordCreate)
| CreateCategory (category : schemas.CategoryCreate)
| DeleteCategory (category_id : Z)
| UpdateCategory (category_id : Z) (category : schemas.CategoryCreate)
| CreateBook (book : schemas.BookCreate)
| DeleteBook (book_id : Z)
| UpdateBook (book_id : Z) (book : schemas.BookCreate)
| CreateUserBook (user_book_ : schemas.UserBookCreate).

Section Service.

Variable kdf : string -> string -> string.
Variable User_update :
  User -> schemas.UserCreate -> result (User * option User).
Variable Record_update :
  Record_ -> schemas.RecordCreate -> result (Record_ * option Record_).
Variable Category_update :
  Category -> schemas.CategoryCreate -> result (Category * option Category).
Variable Book_update :
  Book -> schemas.BookCreate -> result (Book * option Book).

(** The row [crud.create_user] hands to the session. *)
Definition new_user (db : DB) (user : schemas.UserCreate) (salt : string)
    : User :=
  mkUser (database.next_id (map User_id (users db)))
         (schemas.email user) (schemas.username user)
         (auth.get_password_hash kdf salt (schemas.password user)).

(** The store after a request, whatever the request returned. *)
Definition run (q : request) (db : DB) : DB :=
  match q with
  | PostUser user salt => fst (main.create_user kdf user salt db)
  | CreateUser user salt => fst (crud.create_user kdf user salt db)
  | DeleteUser i => fst (crud.delete_user i db)
  | UpdateUser i user => fst (crud.update_user User_update i user db)
  | PostRecord record now => fst (main.create_record record now db)
  | CreateUserRecord record i now =>
      fst (crud.create_user_record record i now db)
  | DeleteRecord i => fst (crud.delete_record i db)
  | UpdateRecord i record =>
      fst (crud.update_record Record_update i record db)
  | CreateCategory category => fst (crud.create_category category db)
  | DeleteCategory i => fst (crud.delete_category i db)
  | UpdateCategory i category =>
      fst (crud.update_category Category_update i category db)
  | CreateBook book => fst (crud.create_book book db)
  | DeleteBook i => fst (crud.delete_book i db)
  | UpdateBook i book => fst (crud.update_book Book_update i book db)
  | CreateUserBook ub => fst (crud.create_user_book ub db)
  end.

(** The states of the store the service can reach from the empty
    tables that [create_all] makes. *)
Inductive reachable : DB -> Prop :=
| reachable_empty : reachable empty
| reachable_run : forall db q, reachable db -> reachable (run q db).

(** The uniqueness constraints models.py declares on [users] and on the
    association table. *)
Definition unique_keys (db : DB) : Prop :=
  NoDup (map User_id (users db))
  /\ NoDup (map User_email (users db))
  /\ NoDup (map User_username (users db))
  /\ NoDup (user_book db).

End Service.

(** The idealisation under which claims do not verify under a key other
    than the one that signed them: a signature determines its key. *)
Definition key_determined (sign : string -> auth.payload -> string) : Prop :=
  forall key key' claims, sign key claims = sign key' claims -> key = key'.

(** What makes a bearer token unacceptable: it is not a well-formed
    token, or its signature is not the one the secret gives its claims,
    or it is expired, or it names no subject, or no user bears the
    subject's name. *)
Definition unauthorized (sign : string -> auth.payload -> string)
    (SECRET_KEY : string) (db : DB) (t : auth.token) (now : datetime)
    : Prop :=
  match t with
  | auth.Garbage _ => True
  | auth.Jws claims signature =>
      signature <> sign SECRET_KEY claims
      \/ (exists e, auth.exp claims = Some e /\ e < now)
      \/ auth.sub claims = None
      \/ (exists name, auth.sub claims = Some name
                       /\ forall u, In u (users db) ->
                                    User_username u <> name)
  end.

(** What idempotent deletion asks of a lookup and a deletion by id: the
    deletion never raises, the id is gone afterwards and every other id
    answers as before, an id that is not there leaves the store as it
    is, and so does a second deletion. *)
Definition idempotent_delete {Row : Type}
    (get : DB -> Z -> option Row) (delete : Z -> M unit) : Prop :=
  forall db i,
    snd (delete i db) = Ok tt
    /\ get (fst (delete i db)) i = None
    /\ (forall j, j <> i -> get (fst (delete i db)) j = get db j)
    /\ (get db i = None -> delete i db = (db, Ok tt))
    /\ delete i (fst (delete i db)) = (fst (delete i db), Ok tt).


(** The primary keys of the four mapped tables. *)
Definition primary_keys (db : DB) : Prop :=
  NoDup (map User_id (users db))
  /\ NoDup (map Book_id (books db))
  /\ NoDup (map Category_id (categories db))
  /\ NoDup (map Record_id (records db)).

End service.

(** ** Concrete inputs *)

Module examples.
Import models.

(** The request body of the specification's end-to-end example. *)
Definition post_record : schemas.RecordCreate :=
  schemas.mkRecordCreate (100 # 1) None 1 1 1.

(** The declarative base of SQLAlchemy as it comes: a mapped row has no
    method [update]. *)
Definition no_update {A B : Type} (row : A) (body : B)
    : result (A * option A) :=
  Raise AttributeError.

Definition record_of_book (i book : Z) : Record_ :=
  mkRecord i (20 # 1) None (Some 1) (Some book) 1 0.

(** Three records, the first and the last in book 1. *)
Definition three_records : DB :=
  set_records empty
    [record_of_book 1 1; record_of_book 2 2; record_of_book 3 1].

(** Stand-ins for the cryptographic primitives, to run the definitions
    on: the digest is the salt followed by the password, the signature
    is the key followed by the subject. *)
Definition toy_kdf (salt password : string) : string :=
  String.append salt password.

Definition toy_sign (key : string) (claims : auth.payload) : string :=
  String.append key
    (String.append "."
       (match auth.sub claims with Some u => u | None => "" end)).

Definition admin : User :=
  mkUser 1 "admin@126.com" "admin" (Crypt "salt" (toy_kdf "salt" "admin")).

Definition one_user : DB := set_users empty [admin].

(** The store after the start-up seeding of users, book and memberships. *)
Definition seeded : DB :=
  fst ((_ <- crud.add_predefined_users toy_kdf ("salt", "pepper") ;;
        _ <- crud.add_predefined_book ;;
        crud.add_predefined_user_book) empty).

(** The same seeding as the sequence of calls it makes. *)
Definition seed : list service.request :=
  [service.CreateUser (schemas.mkUserCreate "admin@126.com" "admin" "admin")
     "salt";
   service.CreateUser (schemas.mkUserCreate "test@126.com" "test" "test")
     "pepper";
   service.CreateBook (schemas.mkBookCreate "default" []);
   service.CreateUserBook (schemas.mkUserBookCreate 1 1);
   service.CreateUserBook (schemas.mkUserBookCreate 2 1)].

Definition run (q : service.request) (db : DB) : DB :=
  service.run toy_kdf (@no_update _ _) (@no_update _ _) (@no_update _ _)
    (@no_update _ _) q db.

Definition entertainment : Category :=
  mkCategory 9 None 9 "娱乐" "Entertainment".

Definition game : Category := mkCategory 10 (Some 9) 91 "游戏" "Game".

(** A store with one user, one book, a category with a child, three
    records and two memberships, one of them to a book that is not
    stored. *)
Definition ledger : DB :=
  mkDB [admin] [mkBook 1 "default"] [entertainment; game]
       [record_of_book 1 1; record_of_book 2 2; record_of_book 3 1]
       [(1, 1); (1, 7)].

End examples.

(** * Properties *)

(** ** Record creation *)

Section RecordCreation.

(** [crud.create_user_record] never reaches the store: [record.dict()]
    carries the key [type_], and [models.Record] has no such attribute. *)
Lemma create_user_record_raises :
  forall record user_id now db,
    crud.create_user_record record user_id now db = (db, Raise TypeError).
Proof. intros; reflexivity. Qed.

(** C1: the claim is that every record-creation request stores the record
    and returns it with [id], [add_by] and [add_at].  The handler of
    POST /records instead raises [TypeError] for every request body and
    leaves the store unchanged; this holds in particular for the body
    [{amount: 100, category_id: 1, book_id: 1}]. *)
Theorem create_record_raises :
  (forall record now db,
      main.create_record record now db = (db, Raise TypeError))
  /\ (forall now db,
         main.create_record examples.post_record now db
         = (db, Raise TypeError)
         /\ crud.get_records
              (fst (main.create_record examples.post_record now db)) 1 0 100
            = crud.get_records db 1 0 100).
Proof.
  split; [reflexivity|].
  intros now db; split; reflexivity.
Qed.

End RecordCreation.

(** ** Lookups in a table *)

Section Tables.

Variable A : Type.
Variable key : A -> Z.

Lemma find_key_some (k : Z) (l : list A) (a : A) :
  find (fun x => key x =? k) l = Some a -> In a l /\ key a = k.
Proof.
  intros H; apply find_some in H; destruct H as [Hin Hk].
  split; [assumption | now apply Z.eqb_eq].
Qed.

(** After [DELETE ... WHERE key = k] no row answers to [k]. *)
Lemma find_deleted (k : Z) (l : list A) :
  find (fun x => key x =? k) (filter (fun x => negb (key x =? k)) l) = None.
Proof.
  induction l as [|x l IH]; simpl; [reflexivity|].
  destruct (Z.eqb_spec (key x) k) as [E|E]; simpl; [assumption|].
  destruct (Z.eqb_spec (key x) k); [contradiction | assumption].
Qed.

(** The rows with another key are found as before. *)
Lemma find_not_deleted (k k' : Z) (l : list A) :
  k' <> k ->
  find (fun x => key x =? k') (filter (fun x => negb (key x =? k)) l)
  = find (fun x => key x =? k') l.
Proof.
  intros Hk; induction l as [|x l IH]; simpl; [reflexivity|].
  destruct (Z.eqb_spec (key x) k) as [E|E]; simpl.
  - destruct (Z.eqb_spec (key x) k') as [E'|E']; [congruence | assumption].
  - destruct (Z.eqb_spec (key x) k'); [reflexivity | assumption].
Qed.

(** A filter that drops nothing leaves the table as it is. *)
Lemma filter_absent (k : Z) (l : list A) :
  ~ In k (map key l) -> filter (fun x => negb (key x =? k)) l = l.
Proof.
  induction l as [|x l IH]; simpl; intros H; [reflexivity|].
  destruct (Z.eqb_spec (key x) k) as [E|E]; simpl.
  - exfalso; apply H; now left.
  - f_equal; apply IH; intros H1; apply H; now right.
Qed.

End Tables.

(** ** The integers of the store *)

Lemma int64_spec (i : Z) :
  database.int64 i = true
  <-> -9223372036854775808 <= i <= 9223372036854775807.
Proof. unfold database.int64; lia. Qed.

Lemma int64_false (i : Z) :
  database.int64 i = false
  <-> i < -9223372036854775808 \/ 9223372036854775807 < i.
Proof. unfold database.int64; lia. Qed.

(** ** Updates *)

Section Updates.
Import models.

Variable User_update :
  User -> schemas.UserCreate -> result (User * option User).
Variable Record_update :
  Record_ -> schemas.RecordCreate -> result (Record_ * option Record_).
Variable Category_update :
  Category -> schemas.CategoryCreate -> result (Category * option Category).
Variable Book_update :
  Book -> schemas.BookCreate -> result (Book * option Book).


End Updates.



(** ** Deletions *)

Section Deletions.
Import models service.

(** The last two parts of [idempotent_delete] follow from the others for
    a deletion that looks the id up first. *)
Lemma idempotent_delete_intro {Row : Type}
    (get : DB -> Z -> option Row) (delete : Z -> M unit) :
  (forall db i, snd (delete i db) = Ok tt) ->
  (forall db i, get (fst (delete i db)) i = None) ->
  (forall db i j, j <> i -> get (fst (delete i db)) j = get db j) ->
  (forall db i, get db i = None -> delete i db = (db, Ok tt)) ->
  idempotent_delete get delete.
Proof.
  intros Hok Hgone Hother Hnoop db i.
  repeat split; auto.
Qed.


Ltac delete_cases get E :=
  intros db i;
  unfold bind, query;
  destruct (get db i) as [row|] eqn:E;
  [ apply find_key_some in E; destruct E as [_ E]; subst i; simpl
  | simpl; auto ].

Lemma delete_user_idempotent :
  idempotent_delete crud.get_user crud.delete_user.
Proof.
  apply idempotent_delete_intro; unfold crud.delete_user.
  - delete_cases crud.get_user E; reflexivity.
  - delete_cases crud.get_user E.
    apply (find_deleted User_id).
  - intros db i j Hj; revert db i Hj.
    delete_cases crud.get_user E. intros Hj.
    apply (find_not_deleted User_id); assumption.
  - intros db i H; unfold bind, query; rewrite H; reflexivity.
Qed.

Lemma delete_record_idempotent :
  idempotent_delete crud.get_record crud.delete_record.
Proof.
  apply idempotent_delete_intro; unfold crud.delete_record.
  - delete_cases crud.get_record E; reflexivity.
  - delete_cases crud.get_record E.
    apply (find_deleted Record_id).
  - intros db i j Hj; revert db i Hj.
    delete_cases crud.get_record E. intros Hj.
    apply (find_not_deleted Record_id); assumption.
  - intros db i H; unfold bind, query; rewrite H; reflexivity.
Qed.

Lemma delete_category_idempotent :
  idempotent_delete crud.get_category crud.delete_category.
Proof.
  apply idempotent_delete_intro; unfold crud.delete_category.
  - delete_cases crud.get_category E; reflexivity.
  - delete_cases crud.get_category E.
    apply (find_deleted Category_id).
  - intros db i j Hj; revert db i Hj.
    delete_cases crud.get_category E. intros Hj.
    apply (find_not_deleted Category_id); assumption.
  - intros db i H; unfold bind, query; rewrite H; reflexivity.
Qed.

Lemma delete_book_idempotent :
  idempotent_delete crud.get_book crud.delete_book.
Proof.
  apply idempotent_delete_intro; unfold crud.delete_book.
  - delete_cases crud.get_book E; reflexivity.
  - delete_cases crud.get_book E.
    apply (find_deleted Book_id).
  - intros db i j Hj; revert db i Hj.
    delete_cases crud.get_book E. intros Hj.
    apply (find_not_deleted Book_id); assumption.
  - intros db i H; unfold bind, query; rewrite H; reflexivity.
Qed.

(** The handler of DELETE /books/{book_id} is the deletion of crud.py
    for a stored id and for every id of the store. *)
Lemma main_delete_book_eq (db : DB) (i : Z) :
  crud.get_book db i <> None \/ database.int64 i = true ->
  main.delete_book i db = crud.delete_book i db.
Proof.
  unfold main.delete_book.
  destruct (crud.get_book db i) as [b|]; [reflexivity|].
  intros [H|H]; [congruence | now rewrite H].
Qed.

End Deletions.




(** ** Listing the records of a book *)

Section Listing.
Import models database.

Lemma in_book_spec (book_id : Z) (r : Record_) :
  crud.in_book book_id r = true <-> Record_book_id r = Some book_id.
Proof.
  unfold crud.in_book; destruct (Record_book_id r) as [b|].
  - rewrite Z.eqb_eq; split; congruence.
  - split; discriminate.
Qed.

(** The rows a pagination window selects once its bounds are bound. *)
Local Abbreviation window skip lim l :=
  (if lim <? 0 then skipn (Z.to_nat skip) l
   else firstn (Z.to_nat lim) (skipn (Z.to_nat skip) l)).

Lemma page_ok {A} (skip lim : Z) (l : list A) :
  int64 skip = true -> int64 lim = true ->
  match offset skip l with
  | Ok rows => limit lim rows
  | Raise e => Raise e
  end = Ok (window skip lim l).
Proof.
  intros Hs Hl; unfold offset, limit; rewrite Hs, Hl; reflexivity.
Qed.

Lemma page_overflow {A} (skip lim : Z) (l : list A) :
  int64 skip && int64 lim = false ->
  match offset skip l with
  | Ok rows => limit lim rows
  | Raise e => Raise e
  end = Raise OverflowError.
Proof.
  unfold offset, limit.
  destruct (int64 skip), (int64 lim); simpl; intros H;
    reflexivity || discriminate.
Qed.

Lemma In_window {A} (skip lim : Z) (l : list A) (x : A) :
  In x (window skip lim l) -> In x l.
Proof.
  assert (Hskip : forall n (l' : list A), In x (skipn n l') -> In x l').
  { induction n as [|k IH]; intros [|y l']; simpl; try tauto.
    intros H; right; now apply IH. }
  assert (Hfirst : forall n (l' : list A), In x (firstn n l') -> In x l').
  { induction n as [|k IH]; intros [|y l']; simpl; try tauto.
    intros [H|H]; [now left | right; now apply IH]. }
  destruct (lim <? 0); intros H; [|apply Hfirst in H]; now apply Hskip in H.
Qed.

Lemma nth_error_window {A} (skip lim : Z) (l : list A) (i : nat) :
  nth_error (window skip lim l) i
  = if (lim <? 0) || (Z.of_nat i <? lim)
    then nth_error l (Z.to_nat skip + i)
    else None.
Proof.
  destruct (Z.ltb_spec lim 0) as [Hn|Hn]; simpl.
  - apply nth_error_skipn.
  - rewrite nth_error_firstn, nth_error_skipn.
    destruct (Nat.ltb_spec i (Z.to_nat lim)), (Z.ltb_spec (Z.of_nat i) lim);
      try reflexivity; lia.
Qed.

Lemma window_beyond {A} (skip lim : Z) (l : list A) :
  Z.of_nat (List.length l) <= skip -> window skip lim l = [].
Proof.
  intros H; rewrite skipn_all2 by lia.
  destruct (lim <? 0); [reflexivity | apply firstn_nil].
Qed.

(** C10: for [book_id], [skip] and [limit] among the integers of the
    store, [get_records] returns records of the requested book only,
    each of them stored and with [book_id] equal to the argument.  The
    result is the window of the book's records, in table order, that
    starts after [skip] rows and holds at most [limit] rows; it is the
    empty list, not an error, when [skip] is at least the number of the
    book's records.  When one of the three is outside the integers of
    the store, [get_records] raises [OverflowError].  The handler of
    GET /records does the same. *)
Theorem get_records_of_book :
  forall db book_id skip lim,
    let matching := filter (crud.in_book book_id) (records db) in
    (forall r, In r matching
               <-> In r (records db) /\ Record_book_id r = Some book_id)
    /\ (int64 book_id && int64 skip && int64 lim = true ->
        exists rows,
          crud.get_records db book_id skip lim = Ok rows
          /\ (forall r, In r rows ->
                        In r (records db) /\ Record_book_id r = Some book_id)
          /\ (forall i : nat,
                 nth_error rows i
                 = if (lim <? 0) || (Z.of_nat i <? lim)
                   then nth_error matching (Z.to_nat skip + i)
                   else None)
          /\ (Z.of_nat (List.length matching) <= skip -> rows = []))
    /\ (int64 book_id && int64 skip && int64 lim = false ->
        crud.get_records db book_id skip lim = Raise OverflowError)
    /\ main.read_records db book_id skip lim
       = crud.get_records db book_id skip lim.
Proof.
  intros db book_id skip lim matching.
  assert (Hin : forall r, In r matching
                <-> In r (records db) /\ Record_book_id r = Some book_id).
  { intros r; unfold matching; rewrite filter_In, in_book_spec; tauto. }
  split; [exact Hin|].
  split.
  { intros H.
    apply andb_prop in H; destruct H as [H Hl].
    apply andb_prop in H; destruct H as [Hb Hs].
    exists (window skip lim matching).
    split.
    { unfold crud.get_records; rewrite Hb; fold matching.
      now apply page_ok. }
    split; [intros r H; apply Hin; now apply In_window in H|].
    split; [intros i; apply nth_error_window | apply window_beyond]. }
  split; [|reflexivity].
  intros H; unfold crud.get_records.
  destruct (int64 book_id); [|reflexivity].
  apply page_overflow; exact H.
Qed.

End Listing.

(** GET /records?book_id=1&skip=9223372036854775808 on a store whose
    book 1 has two records: the skip is beyond their count, and the
    listing raises [OverflowError]. *)
Lemma get_records_overflow :
  crud.get_records examples.three_records 1 9223372036854775808 100
  = Raise OverflowError.
Proof. reflexivity. Qed.

Lemma get_records_of_book_witness :
  database.int64 1 && database.int64 5 && database.int64 100 = true
  /\ crud.get_records examples.three_records 1 5 100 = Ok []
  /\ crud.get_records examples.three_records 1 1 100
     = Ok [examples.record_of_book 3 1].
Proof.
  destruct (get_records_of_book examples.three_records 1 5 100)
    as (_ & H & _).
  destruct (H eq_refl) as (rows & Hrows & _ & _ & Hempty).
  split; [reflexivity|].
  split; [|reflexivity].
  rewrite Hrows; f_equal; apply Hempty; simpl; lia.
Defined.

(** ** Passwords *)

Lemma append_length (s t : string) :
  String.length (String.append s t) = (String.length s + String.length t)%nat.
Proof. induction s as [|c s IH]; simpl; [reflexivity | now rewrite IH]. Qed.

Lemma append_inj_r (s s' t : string) :
  String.append s t = String.append s' t -> s = s'.
Proof.
  revert s'; induction s as [|c s IH]; intros [|c' s'] H; simpl in H.
  - reflexivity.
  - exfalso; apply (f_equal String.length) in H; simpl in H.
    rewrite append_length in H; lia.
  - exfalso; apply (f_equal String.length) in H; simpl in H.
    rewrite append_length in H; lia.
  - injection H as Hc H; subst c'; f_equal; auto.
Qed.

(** ** Bearer tokens *)

Section Tokens.
Import models.

Variable sign : string -> auth.payload -> string.
Variable SECRET_KEY : string.

Local Abbreviation token_subject := (crud.token_subject sign SECRET_KEY).
Local Abbreviation get_current_user := (crud.get_current_user sign SECRET_KEY).

Lemma jwt_decode_encode (claims : auth.payload) (now : datetime) :
  auth.jwt_decode sign (auth.jwt_encode sign claims SECRET_KEY)
    SECRET_KEY now
  = match auth.exp claims with
    | Some e => if e <? now then Raise JWTError else Ok claims
    | None => Ok claims
    end.
Proof. simpl; now rewrite String.eqb_refl. Qed.

(** The decoder raises nothing but [JWTError]. *)
Lemma jwt_decode_raises (t : auth.token) (key : string) (now : datetime)
    (e : exn) :
  auth.jwt_decode sign t key now = Raise e -> e = JWTError.
Proof.
  destruct t as [claims s|raw]; simpl; [|congruence].
  destruct (String.eqb s (sign key claims)); [|congruence].
  destruct (auth.exp claims) as [x|]; [|discriminate].
  destruct (x <? now); congruence.
Qed.

(** A token rejected at some time is rejected at every later time. *)
Lemma token_subject_stays_invalid (t : auth.token) (now later : datetime)
    (e : exn) :
  now <= later ->
  token_subject t now = Raise e -> token_subject t later = Raise e.
Proof.
  intros Hle; unfold token_subject, crud.token_subject.
  destruct t as [claims s|raw]; simpl; [|auto].
  destruct (String.eqb s (sign SECRET_KEY claims)); [|auto].
  destruct (auth.exp claims) as [x|]; [|auto].
  destruct (Z.ltb_spec x now) as [H|H]; simpl.
  - destruct (Z.ltb_spec x later); [auto | lia].
  - intros H1; destruct (x <? later); simpl; [|exact H1].
    destruct (auth.sub claims); [discriminate | exact H1].
Qed.

(** An issued token resolves to its subject up to its expiry time. *)
Lemma token_subject_issued (u : string) (ttl : timedelta)
    (issued now : datetime) :
  now <= issued + ttl ->
  token_subject (auth.create_access_token sign SECRET_KEY u ttl issued) now
  = Ok u.
Proof.
  intros Hnow; unfold crud.token_subject, auth.create_access_token.
  rewrite jwt_decode_encode; simpl.
  destruct (Z.ltb_spec (issued + ttl) now); [lia | reflexivity].
Qed.

(** C3: a token issued for subject [u] with a positive time to live
    resolves to [u] at the time of issue and at every time before the
    time of issue plus the time to live, and is rejected with the
    credentials exception at every time past it.  No token that is
    rejected at some time is accepted at a later time. *)
Theorem token_valid_until_expiry :
  forall u ttl issued,
    0 < ttl ->
    let t := auth.create_access_token sign SECRET_KEY u ttl issued in
    token_subject t issued = Ok u
    /\ (forall now, now < issued + ttl -> token_subject t now = Ok u)
    /\ (forall now, issued + ttl < now ->
           token_subject t now = Raise crud.credentials_exception)
    /\ (forall (t' : auth.token) now later e,
           now <= later ->
           token_subject t' now = Raise e ->
           token_subject t' later = Raise e).
Proof.
  intros u ttl issued Httl t.
  split; [apply token_subject_issued; lia|].
  split; [intros now Hnow; apply token_subject_issued; lia|].
  split.
  - intros now Hnow.
    unfold token_subject, crud.token_subject, t, auth.create_access_token.
    rewrite jwt_decode_encode; simpl.
    destruct (Z.ltb_spec (issued + ttl) now); [reflexivity | lia].
  - intros t' now later e; apply token_subject_stays_invalid.
Qed.

Lemma get_user_by_username_some (db : DB) (name : string) (u : User) :
  crud.get_user_by_username db name = Some u ->
  In u (users db) /\ User_username u = name.
Proof.
  intros H; apply find_some in H; destruct H as [Hin H].
  split; [assumption | now apply String.eqb_eq].
Qed.

Lemma get_user_by_username_none (db : DB) (name : string) :
  crud.get_user_by_username db name = None ->
  forall u, In u (users db) -> User_username u <> name.
Proof.
  intros H u Hin E.
  apply (find_none _ _ H) in Hin; simpl in Hin.
  apply String.eqb_neq in Hin; contradiction.
Qed.

Local Abbreviation unauthorized := (service.unauthorized sign SECRET_KEY).

(** The two outcomes of [get_current_user]. *)
Lemma get_current_user_cases (db : DB) (t : auth.token) (now : datetime) :
  (unauthorized db t now
   /\ get_current_user db t now = Raise crud.credentials_exception)
  \/ (~ unauthorized db t now
      /\ exists u claims signature,
           t = auth.Jws claims signature
           /\ auth.sub claims = Some (User_username u)
           /\ In u (users db)
           /\ get_current_user db t now = Ok u).
Proof.
  unfold get_current_user, crud.get_current_user, crud.token_subject.
  destruct t as [claims s|raw]; [|left; split; [exact I|reflexivity]].
  set (U := unauthorized db (auth.Jws claims s) now).
  assert (HU : U <-> unauthorized db (auth.Jws claims s) now) by reflexivity.
  clearbody U; simpl in HU; simpl.
  destruct (String.eqb_spec s (sign SECRET_KEY claims)) as [Hs|Hs];
    [|left; split; [apply HU; now left | reflexivity]].
  destruct (auth.exp claims) as [x|] eqn:Hx.
  - destruct (Z.ltb_spec x now) as [Hlt|Hge]; simpl.
    + left; split; [|reflexivity].
      apply HU; right; left; exists x; split; [reflexivity | assumption].
    + destruct (auth.sub claims) as [name|] eqn:Hsub;
        [|left; split; [apply HU; now right; right; left | reflexivity]].
      destruct (crud.get_user_by_username db name) as [u|] eqn:Hu.
      * apply get_user_by_username_some in Hu; destruct Hu as [Hin Hname].
        right; split.
        -- rewrite HU.
           intros [H|[(e & He & Hlt)|[H|(n & Hn & Hall)]]];
             [contradiction | injection He as He; lia | discriminate |].
           apply (Hall u Hin); congruence.
        -- exists u, claims, s; repeat split; [congruence | assumption].
      * left; split; [|reflexivity].
        apply HU; right; right; right; exists name; split; [reflexivity|].
        now apply get_user_by_username_none.
  - simpl.
    destruct (auth.sub claims) as [name|] eqn:Hsub;
      [|left; split; [apply HU; now right; right; left | reflexivity]].
    destruct (crud.get_user_by_username db name) as [u|] eqn:Hu.
    + apply get_user_by_username_some in Hu; destruct Hu as [Hin Hname].
      right; split.
      * rewrite HU.
        intros [H|[(e & He & Hlt)|[H|(n & Hn & Hall)]]];
          [contradiction | discriminate | discriminate |].
        apply (Hall u Hin); congruence.
      * exists u, claims, s; repeat split; [congruence | assumption].
    + left; split; [|reflexivity].
      apply HU; right; right; right; exists name; split; [reflexivity|].
      now apply get_user_by_username_none.
Qed.

(** C4: resolving the current user from a bearer token raises the 401
    credentials exception exactly when the token is malformed, its
    signature does not verify, it is expired, it carries no subject, or
    no user bears the subject's name; it raises nothing else; in every
    other case it returns the stored user whose username is the token's
    subject.  For a signature scheme in which a signature determines its
    key, every token signed under another secret is among the rejected
    ones. *)
Theorem get_current_user_unauthorized :
  forall db t now,
    (get_current_user db t now = Raise crud.credentials_exception
     <-> unauthorized db t now)
    /\ (forall e, get_current_user db t now = Raise e ->
                  e = crud.credentials_exception)
    /\ (~ unauthorized db t now ->
        exists u claims signature,
          t = auth.Jws claims signature
          /\ auth.sub claims = Some (User_username u)
          /\ In u (users db)
          /\ get_current_user db t now = Ok u)
    /\ (service.key_determined sign ->
        forall claims key,
          key <> SECRET_KEY ->
          get_current_user db (auth.jwt_encode sign claims key) now
          = Raise crud.credentials_exception).
Proof.
  intros db t now.
  split; [|split; [|split]].
  - destruct (get_current_user_cases db t now)
      as [[Hu Hr]|(Hn & u & c & s & _ & _ & _ & Hr)].
    + split; auto.
    + split; [rewrite Hr; discriminate | contradiction].
  - intros e He.
    destruct (get_current_user_cases db t now)
      as [[_ Hr]|(_ & u & c & s & _ & _ & _ & Hr)]; congruence.
  - intros Hn.
    destruct (get_current_user_cases db t now) as [[Hu _]|[_ H]];
      [contradiction | exact H].
  - intros Hinj claims key Hkey.
    destruct (get_current_user_cases db
                (auth.jwt_encode sign claims key) now)
      as [[_ Hr]|(Hn & _)]; [exact Hr|].
    exfalso; apply Hn; left; intros H.
    apply Hkey; exact (Hinj _ _ _ H).
Qed.

End Tokens.

(** ** Logging in *)

Section Login.
Import models.

Variable kdf : string -> string -> string.
Variable sign : string -> auth.payload -> string.
Variable SECRET_KEY : string.
Variable ACCESS_TOKEN_EXPIRE_MINUTES : Z.

(** The token a successful login returns resolves, at the time of the
    login, to the user that logged in. *)
Lemma login_then_current_user :
  forall db username password now access_token,
    0 <= ACCESS_TOKEN_EXPIRE_MINUTES ->
    main.login_for_access_token kdf sign SECRET_KEY
      ACCESS_TOKEN_EXPIRE_MINUTES db username password now
    = Ok access_token ->
    exists user,
      crud.get_user_by_username db username = Some user
      /\ crud.get_current_user sign SECRET_KEY db access_token now = Ok user.
Proof.
  intros db username password now access_token Hmin.
  unfold main.login_for_access_token, crud.authenticate_user.
  destruct (crud.get_user_by_username db username) as [user|] eqn:Hu;
    [|discriminate].
  destruct (auth.verify_password kdf password (User_hashed_password user))
    as [[|]|e]; try discriminate.
  intros H; injection H as H; subst access_token.
  exists user; split; [reflexivity|].
  unfold crud.get_current_user.
  rewrite token_subject_issued
    by (destruct ACCESS_TOKEN_EXPIRE_MINUTES; lia).
  destruct (get_user_by_username_some _ _ Hu) as [_ Hname].
  rewrite Hname, Hu; reflexivity.
Qed.

End Login.

(** The end-to-end example of the specification: logging in as the seeded
    [admin] gives a token that resolves to the user with id 1. *)
Lemma login_as_seeded_admin :
  exists access_token user,
    main.login_for_access_token examples.toy_kdf examples.toy_sign "secret" 30
      examples.seeded "admin" "admin" 1000
    = Ok access_token
    /\ crud.get_current_user examples.toy_sign "secret" examples.seeded
         access_token 1000
       = Ok user
    /\ models.User_id user = 1
    /\ models.User_username user = "admin".
Proof. do 2 eexists; repeat split; reflexivity. Qed.

Lemma token_valid_until_expiry_witness :
  crud.token_subject examples.toy_sign "secret"
    (auth.create_access_token examples.toy_sign "secret" "admin" 1800 1000)
    2799
  = Ok "admin"
  /\ crud.token_subject examples.toy_sign "secret"
       (auth.create_access_token examples.toy_sign "secret" "admin" 1800 1000)
       2801
     = Raise crud.credentials_exception.
Proof.
  destruct (@token_valid_until_expiry examples.toy_sign "secret"
              "admin" 1800 1000 ltac:(lia))
    as (_ & Hbefore & Hafter & _).
  split; [apply Hbefore; lia | apply Hafter; lia].
Defined.

Lemma get_current_user_unauthorized_witness :
  crud.get_current_user examples.toy_sign "secret" examples.one_user
    (auth.jwt_encode examples.toy_sign
       (auth.mkPayload (Some "admin") (Some 2800)) "other") 1000
  = Raise crud.credentials_exception
  /\ crud.get_current_user examples.toy_sign "secret" examples.one_user
       (auth.jwt_encode examples.toy_sign
          (auth.mkPayload (Some "admin") (Some 2800)) "secret") 1000
     = Ok examples.admin.
Proof.
  assert (H : service.key_determined examples.toy_sign).
  { intros key key' claims; apply append_inj_r. }
  destruct (get_current_user_unauthorized examples.toy_sign "secret"
              examples.one_user (auth.Garbage "") 1000)
    as (_ & _ & _ & Hother).
  split; [apply (Hother H); discriminate | reflexivity].
Defined.

(** ** Unique columns *)

Section UniqueColumn.

Variables (A K : Type) (eqb : K -> K -> bool) (col : A -> K).
Hypothesis eqb_spec : forall a b, reflect (a = b) (eqb a b).

Lemma existsb_col (k : K) (l : list A) :
  existsb (fun x => eqb (col x) k) l = false <-> ~ In k (map col l).
Proof.
  induction l as [|x l IH]; simpl.
  - split; [intros _ [] | reflexivity].
  - destruct (eqb_spec (col x) k) as [E|E]; simpl.
    + split; [discriminate | intros H; exfalso; apply H; now left].
    + rewrite IH; split.
      * intros H [H1|H1]; [now apply E | now apply H].
      * intros H H1; apply H; now right.
Qed.

Lemma find_col_none (k : K) (l : list A) :
  find (fun x => eqb (col x) k) l = None <-> ~ In k (map col l).
Proof.
  induction l as [|x l IH]; simpl.
  - split; [intros _ [] | reflexivity].
  - destruct (eqb_spec (col x) k) as [E|E].
    + split; [discriminate | intros H; exfalso; apply H; now left].
    + rewrite IH; split.
      * intros H [H1|H1]; [now apply E | now apply H].
      * intros H H1; apply H; now right.
Qed.

Lemma find_col_some (k : K) (l : list A) (a : A) :
  find (fun x => eqb (col x) k) l = Some a -> In k (map col l).
Proof.
  intros H; apply find_some in H; destruct H as [Hin H].
  destruct (eqb_spec (col a) k) as [E|E]; [|discriminate].
  subst k; now apply in_map.
Qed.

(** A row appended under a value the column does not hold yet is the one
    a lookup of that value finds. *)
Lemma find_appended (l : list A) (a : A) :
  ~ In (col a) (map col l) ->
  find (fun x => eqb (col x) (col a)) (l ++ [a]) = Some a.
Proof.
  induction l as [|x l IH]; simpl; intros H.
  - destruct (eqb_spec (col a) (col a)); [reflexivity | contradiction].
  - destruct (eqb_spec (col x) (col a)) as [E|E].
    + exfalso; apply H; now left.
    + apply IH; intros H1; apply H; now right.
Qed.

Lemma NoDup_col_appended (l : list A) (a : A) :
  NoDup (map col l) -> ~ In (col a) (map col l) ->
  NoDup (map col (l ++ [a])).
Proof.
  intros Hl Ha; rewrite map_app; simpl.
  apply NoDup_app; [assumption | repeat constructor; intros [] |].
  intros k Hk [E|[]]; subst k; contradiction.
Qed.

Lemma In_col_filter (p : A -> bool) (k : K) (l : list A) :
  In k (map col (filter p l)) -> In k (map col l).
Proof.
  rewrite !in_map_iff; intros (x & Hx & Hin).
  apply filter_In in Hin; exists x; tauto.
Qed.

Lemma NoDup_col_filter (p : A -> bool) (l : list A) :
  NoDup (map col l) -> NoDup (map col (filter p l)).
Proof.
  induction l as [|x l IH]; simpl; intros H; [constructor|].
  inversion H as [|? ? Hx Hl]; subst.
  destruct (p x); simpl; [|auto].
  constructor; [|auto].
  intros H1; apply Hx; eapply In_col_filter; eassumption.
Qed.

(** [UPDATE ... WHERE id = k]: the column stays free of duplicates when
    the new value differs from those of all the other rows. *)
Lemma NoDup_col_updated (id : A -> Z) (k : Z) (a' : A) (l : list A) :
  NoDup (map id l) ->
  NoDup (map col l) ->
  ~ In (col a') (map col (filter (fun x => negb (id x =? k)) l)) ->
  NoDup (map col (map (fun x => if id x =? k then a' else x) l)).
Proof.
  induction l as [|x l IH]; simpl; intros Hid Hcol Hnew; [constructor|].
  inversion Hid as [|? ? Hx Hidl]; inversion Hcol as [|? ? Hcx Hcoll]; subst.
  destruct (Z.eqb_spec (id x) k) as [E|E]; simpl in Hnew.
  - subst k.
    assert (Hsame : map (fun y => if id y =? id x then a' else y) l = l).
    { clear - Hx; induction l as [|y l IH]; simpl; [reflexivity|].
      destruct (Z.eqb_spec (id y) (id x)) as [E|E].
      - exfalso; apply Hx; left; assumption.
      - f_equal; apply IH; intros H; apply Hx; now right. }
    rewrite Hsame, filter_absent in * by assumption.
    constructor; assumption.
  - constructor; [|apply IH; auto].
    rewrite map_map; intros H; apply in_map_iff in H.
    destruct H as (y & Hy & Hin).
    destruct (Z.eqb_spec (id y) k) as [E'|E'].
    + apply Hnew; left; symmetry; assumption.
    + apply Hcx; rewrite <- Hy; now apply in_map.
Qed.

End UniqueColumn.

Lemma next_id_fresh (ids : list Z) (x : Z) :
  In x ids -> x < database.next_id ids.
Proof.
  unfold database.next_id; intros H.
  enough (x <= fold_right Z.max 0 ids) by lia.
  induction ids as [|y ids IH]; cbn [fold_right]; [destruct H|].
  destruct H as [H|H]; [subst; lia | apply IH in H; lia].
Qed.

Lemma next_id_not_in (ids : list Z) : ~ In (database.next_id ids) ids.
Proof. intros H; apply next_id_fresh in H; lia. Qed.

Lemma pair_eqb_spec (p q : Z * Z) : reflect (p = q) (database.pair_eqb q p).
Proof.
  destruct p as [a b], q as [c d]; unfold database.pair_eqb; simpl.
  destruct (Z.eqb_spec c a), (Z.eqb_spec d b); simpl; constructor; congruence.
Qed.

(** ** The store keeps its keys unique *)

Section UserCreation.
Import models database service.

Variable kdf : string -> string -> string.

Local Abbreviation new_user := (service.new_user kdf).

Lemma user_conflicts_false (u : User) (l : list User) :
  user_conflicts u l = false
  <-> ~ In (User_id u) (map User_id l)
      /\ ~ In (User_email u) (map User_email l)
      /\ ~ In (User_username u) (map User_username l).
Proof.
  unfold user_conflicts; rewrite !orb_false_iff.
  rewrite (@existsb_col _ _ Z.eqb User_id Z.eqb_spec).
  rewrite (@existsb_col _ _ String.eqb User_email String.eqb_spec).
  rewrite (@existsb_col _ _ String.eqb User_username String.eqb_spec).
  tauto.
Qed.

Lemma crud_create_user_eq (db : DB) (user : schemas.UserCreate)
    (salt : string) :
  crud.create_user kdf user salt db
  = if user_conflicts (new_user db user salt) (users db)
    then (db, Raise IntegrityError)
    else (set_users db (users db ++ [new_user db user salt]),
          Ok (new_user db user salt)).
Proof. reflexivity. Qed.

Lemma crud_create_user_fresh (db : DB) (user : schemas.UserCreate)
    (salt : string) :
  ~ In (schemas.email user) (map User_email (users db)) ->
  ~ In (schemas.username user) (map User_username (users db)) ->
  crud.create_user kdf user salt db
  = (set_users db (users db ++ [new_user db user salt]),
     Ok (new_user db user salt)).
Proof.
  intros He Hu; rewrite crud_create_user_eq.
  replace (user_conflicts (new_user db user salt) (users db)) with false;
    [reflexivity|].
  symmetry; apply user_conflicts_false; simpl.
  split; [apply next_id_not_in | split; assumption].
Qed.

Lemma crud_create_user_taken (db : DB) (user : schemas.UserCreate)
    (salt : string) :
  In (schemas.email user) (map User_email (users db))
  \/ In (schemas.username user) (map User_username (users db)) ->
  crud.create_user kdf user salt db = (db, Raise IntegrityError).
Proof.
  intros H; rewrite crud_create_user_eq.
  destruct (user_conflicts (new_user db user salt) (users db)) eqn:E;
    [reflexivity|].
  apply user_conflicts_false in E; simpl in E; tauto.
Qed.

(** C5, as amended: creating a user whose email is already present is
    refused with HTTP 400 "Email already registered" and leaves the
    store as it was; creating a user whose email and username are both
    fresh succeeds, appends one user carrying them under an id no other
    user has, and that user is then the one found by its id and by its
    email. *)
Theorem create_user_by_email :
  forall db user salt,
    (forall existing,
        crud.get_user_by_email db (schemas.email user) = Some existing ->
        main.create_user kdf user salt db
        = (db, Raise (HTTPException 400 "Email already registered")))
    /\ (crud.get_user_by_email db (schemas.email user) = None ->
        crud.get_user_by_username db (schemas.username user) = None ->
        exists u db',
          main.create_user kdf user salt db = (db', Ok u)
          /\ users db' = users db ++ [u]
          /\ User_email u = schemas.email user
          /\ User_username u = schemas.username user
          /\ ~ In (User_id u) (map User_id (users db))
          /\ crud.get_user db' (User_id u) = Some u
          /\ crud.get_user_by_email db' (schemas.email user) = Some u).
Proof.
  intros db user salt; split.
  - intros existing H; unfold main.create_user, bind, query.
    rewrite H; reflexivity.
  - intros He Hu.
    assert (He' := He); assert (Hu' := Hu).
    apply (@find_col_none _ _ String.eqb User_email String.eqb_spec) in He'.
    apply (@find_col_none _ _ String.eqb User_username String.eqb_spec)
      in Hu'.
    exists (new_user db user salt),
      (set_users db (users db ++ [new_user db user salt])).
    split.
    { unfold main.create_user, bind, query; rewrite He.
      now apply crud_create_user_fresh. }
    split; [reflexivity|].
    split; [reflexivity|].
    split; [reflexivity|].
    split; [apply next_id_not_in|].
    split.
    + apply (@find_appended _ _ Z.eqb User_id Z.eqb_spec).
      apply next_id_not_in.
    + apply (@find_appended _ _ String.eqb User_email String.eqb_spec
               (users db) (new_user db user salt)).
      exact He'.
Qed.

End UserCreation.

Section Store.
Import models database service.

Variable kdf : string -> string -> string.
Variable User_update :
  User -> schemas.UserCreate -> result (User * option User).
Variable Record_update :
  Record_ -> schemas.RecordCreate -> result (Record_ * option Record_).
Variable Category_update :
  Category -> schemas.CategoryCreate -> result (Category * option Category).
Variable Book_update :
  Book -> schemas.BookCreate -> result (Book * option Book).

Local Abbreviation run :=
  (service.run kdf User_update Record_update Category_update Book_update).
Local Abbreviation reachable :=
  (service.reachable kdf User_update Record_update Category_update
     Book_update).
Local Abbreviation new_user := (service.new_user kdf).

Lemma unique_keys_same (db db' : DB) :
  users db' = users db -> user_book db' = user_book db ->
  unique_keys db -> unique_keys db'.
Proof. unfold unique_keys; intros -> ->; auto. Qed.

Lemma crud_create_user_keeps (db : DB) (user : schemas.UserCreate)
    (salt : string) :
  unique_keys db -> unique_keys (fst (crud.create_user kdf user salt db)).
Proof.
  intros (Hid & He & Hu & Hm); rewrite crud_create_user_eq.
  destruct (user_conflicts (new_user db user salt) (users db)) eqn:E;
    simpl; [repeat split; assumption|].
  apply user_conflicts_false in E; destruct E as (E1 & E2 & E3).
  repeat split; simpl; try assumption; apply NoDup_col_appended; assumption.
Qed.

Lemma delete_user_keeps (db : DB) (i : Z) :
  unique_keys db -> unique_keys (fst (crud.delete_user i db)).
Proof.
  intros (Hid & He & Hu & Hm); unfold crud.delete_user, bind, query.
  destruct (crud.get_user db i); simpl; [|repeat split; assumption].
  repeat split; simpl;
    try apply NoDup_col_filter; try apply NoDup_filter; assumption.
Qed.

Lemma update_user_keeps (db : DB) (i : Z) (user : schemas.UserCreate) :
  unique_keys db ->
  unique_keys (fst (crud.update_user User_update i user db)).
Proof.
  intros (Hid & He & Hu & Hm); unfold crud.update_user, bind, query.
  destruct (crud.get_user db i) as [u|]; simpl; [|repeat split; assumption].
  destruct (User_update u user) as [[u' returned]|e]; simpl;
    [|repeat split; assumption].
  destruct (user_conflicts u' _) eqn:E; simpl; [repeat split; assumption|].
  apply user_conflicts_false in E; destruct E as (E1 & E2 & E3).
  repeat split; simpl; try assumption;
    apply NoDup_col_updated; assumption.
Qed.

Lemma existsb_pair (row : Z * Z) (l : list (Z * Z)) :
  existsb (pair_eqb row) l = false <-> ~ In row l.
Proof.
  induction l as [|x l IH]; simpl.
  - split; [intros _ [] | reflexivity].
  - destruct (pair_eqb_spec x row) as [E|E]; simpl.
    + split; [discriminate | intros H; exfalso; apply H; now left].
    + rewrite IH; split.
      * intros H [H1|H1]; [now apply E | now apply H].
      * intros H H1; apply H; now right.
Qed.

Lemma create_user_book_keeps (db : DB) (ub : schemas.UserBookCreate) :
  unique_keys db -> unique_keys (fst (crud.create_user_book ub db)).
Proof.
  intros (Hid & He & Hu & Hm); unfold crud.create_user_book.
  destruct (existsb _ (user_book db)) eqn:E; simpl;
    [repeat split; assumption|].
  repeat split; simpl; try assumption.
  apply NoDup_app; [assumption | repeat constructor; intros [] |].
  intros row Hrow [H|[]]; subst row.
  apply existsb_pair in E; contradiction.
Qed.

Lemma delete_book_keeps (db : DB) (i : Z) :
  unique_keys db -> unique_keys (fst (crud.delete_book i db)).
Proof.
  intros (Hid & He & Hu & Hm); unfold crud.delete_book, bind, query.
  destruct (crud.get_book db i); simpl; [|repeat split; assumption].
  repeat split; simpl; try assumption; apply NoDup_filter; assumption.
Qed.

Lemma main_create_user_keeps (db : DB) (user : schemas.UserCreate)
    (salt : string) :
  unique_keys db -> unique_keys (fst (main.create_user kdf user salt db)).
Proof.
  intros H; unfold main.create_user, bind, query.
  destruct (crud.get_user_by_email db (schemas.email user)); simpl;
    [assumption | now apply crud_create_user_keeps].
Qed.

(** The functions that write to neither [users] nor [user_book]. *)
Ltac untouched :=
  apply unique_keys_same;
  unfold main.create_record, crud.call_create_user_record,
    crud.create_user_record, crud.delete_record, crud.update_record,
    crud.create_category, crud.delete_category, crud.update_category,
    crud.create_book, crud.update_book, bind, query, raise, ret;
  repeat match goal with
         | |- context [match ?x with _ => _ end] => destruct x
         end;
  reflexivity.

Lemma run_keeps (q : request) (db : DB) :
  unique_keys db -> unique_keys (run q db).
Proof.
  destruct q; unfold run; simpl.
  - apply main_create_user_keeps.
  - apply crud_create_user_keeps.
  - apply delete_user_keeps.
  - apply update_user_keeps.
  - untouched.
  - untouched.
  - untouched.
  - untouched.
  - untouched.
  - untouched.
  - untouched.
  - untouched.
  - apply delete_book_keeps.
  - untouched.
  - apply create_user_book_keeps.
Qed.

Lemma reachable_unique_keys (db : DB) : reachable db -> unique_keys db.
Proof.
  induction 1 as [|db q _ IH].
  - repeat split; constructor.
  - now apply run_keeps.
Qed.

(** C6: in every state of the store the service reaches, no two users
    have the same email and no two have the same username.  A creation
    request that repeats the email of a stored user is refused with
    HTTP 400, one that repeats only a username is refused by the store
    with [IntegrityError], and either way the store is left as it
    was. *)
Theorem users_unique_email_username :
  (forall db,
      reachable db ->
      NoDup (map User_email (users db))
      /\ NoDup (map User_username (users db)))
  /\ (forall db user salt,
         (In (schemas.email user) (map User_email (users db)) ->
          main.create_user kdf user salt db
          = (db, Raise (HTTPException 400 "Email already registered")))
         /\ (~ In (schemas.email user) (map User_email (users db)) ->
             In (schemas.username user) (map User_username (users db)) ->
             main.create_user kdf user salt db = (db, Raise IntegrityError))
         /\ (In (schemas.email user) (map User_email (users db))
             \/ In (schemas.username user) (map User_username (users db)) ->
             crud.create_user kdf user salt db
             = (db, Raise IntegrityError))).
Proof.
  split.
  - intros db H; apply reachable_unique_keys in H.
    destruct H as (_ & He & Hu & _); split; assumption.
  - intros db user salt; unfold main.create_user, bind, query.
    destruct (crud.get_user_by_email db (schemas.email user)) as [v|] eqn:E.
    + split; [reflexivity|].
      split; [|apply crud_create_user_taken].
      intros Hn; exfalso; apply Hn.
      exact (@find_col_some _ _ String.eqb User_email String.eqb_spec
               _ _ _ E).
    + apply (@find_col_none _ _ String.eqb User_email String.eqb_spec) in E.
      split; [contradiction|].
      split; [|apply crud_create_user_taken].
      intros _ Hu; apply crud_create_user_taken; now right.
Qed.

(** C9: [create_user_book] appends the pair (user_id, book_id) to the
    association table when it is not there yet, and raises
    [IntegrityError], leaving the table as it was, when it is; in every
    state of the store the service reaches, the pairs of the table are
    pairwise distinct. *)
Theorem membership_pairs_unique :
  (forall db ub,
      In (schemas.ub_user_id ub, schemas.ub_book_id ub) (user_book db) ->
      crud.create_user_book ub db = (db, Raise IntegrityError))
  /\ (forall db ub,
         ~ In (schemas.ub_user_id ub, schemas.ub_book_id ub) (user_book db) ->
         crud.create_user_book ub db
         = (set_user_book db
              (user_book db
               ++ [(schemas.ub_user_id ub, schemas.ub_book_id ub)]),
            Ok ub))
  /\ (forall db, reachable db -> NoDup (user_book db)).
Proof.
  split; [|split].
  - intros db ub H; unfold crud.create_user_book.
    destruct (existsb _ (user_book db)) eqn:E; [reflexivity|].
    apply existsb_pair in E; contradiction.
  - intros db ub H; unfold crud.create_user_book.
    apply existsb_pair in H; rewrite H; reflexivity.
  - intros db H; apply reachable_unique_keys in H.
    destruct H as (_ & _ & _ & Hm); assumption.
Qed.

End Store.

Lemma seeded_by_requests :
  examples.seeded = fold_left (fun db q => examples.run q db) examples.seed
                      models.empty.
Proof. reflexivity. Qed.

Lemma seeded_reachable :
  service.reachable examples.toy_kdf (@examples.no_update _ _)
    (@examples.no_update _ _) (@examples.no_update _ _)
    (@examples.no_update _ _) examples.seeded.
Proof.
  rewrite seeded_by_requests; unfold examples.seed; cbn [fold_left].
  do 5 apply service.reachable_run; apply service.reachable_empty.
Qed.

(** C5, as stated, fails: the email is fresh, the username is the one of a
    stored user, and the creation does not succeed. *)
Lemma create_user_fresh_email_refused :
  crud.get_user_by_email examples.one_user "bob@126.com" = None
  /\ main.create_user examples.toy_kdf
       (schemas.mkUserCreate "bob@126.com" "admin" "pw") "salt"
       examples.one_user
     = (examples.one_user, Raise IntegrityError).
Proof. split; reflexivity. Qed.

Lemma create_user_by_email_witness :
  exists u db',
    main.create_user examples.toy_kdf
      (schemas.mkUserCreate "test@126.com" "test" "test") "salt"
      examples.one_user
    = (db', Ok u)
    /\ crud.get_user db' (models.User_id u) = Some u
    /\ crud.get_user_by_email db' "test@126.com" = Some u.
Proof.
  destruct (create_user_by_email examples.toy_kdf examples.one_user
              (schemas.mkUserCreate "test@126.com" "test" "test") "salt")
    as [_ H].
  destruct (H eq_refl eq_refl) as (u & db' & H1 & _ & _ & _ & _ & H2 & H3).
  exists u, db'; repeat split; assumption.
Defined.

Lemma users_unique_email_username_witness :
  NoDup (map models.User_email (models.users examples.seeded))
  /\ NoDup (map models.User_username (models.users examples.seeded)).
Proof.
  destruct (users_unique_email_username examples.toy_kdf
              (@examples.no_update _ _) (@examples.no_update _ _)
              (@examples.no_update _ _) (@examples.no_update _ _))
    as [H _].
  apply H, seeded_reachable.
Defined.

Lemma membership_pairs_unique_witness :
  crud.create_user_book (schemas.mkUserBookCreate 1 1) examples.seeded
  = (examples.seeded, Raise IntegrityError)
  /\ NoDup (models.user_book examples.seeded).
Proof.
  destruct (membership_pairs_unique examples.toy_kdf
              (@examples.no_update _ _) (@examples.no_update _ _)
              (@examples.no_update _ _) (@examples.no_update _ _))
    as (Hdup & _ & Hunique).
  split; [apply Hdup; simpl; now left | apply Hunique, seeded_reachable].
Defined.

(** * Further properties of the code *)

(** ** Pages of a listing *)

Section Paging.
Import models database.

Variable A : Type.

Local Abbreviation page skip lim l :=
  (match offset skip l with
   | Ok rows => limit lim rows
   | Raise e => Raise e
   end).

Lemma firstn_add (n m : nat) (l : list A) :
  firstn n l ++ firstn m (skipn n l) = firstn (n + m) l.
Proof.
  revert l; induction n as [|n IH]; intros [|x l]; simpl.
  - reflexivity.
  - reflexivity.
  - now rewrite firstn_nil.
  - now rewrite IH.
Qed.

Lemma page_app (skip n m : Z) (l : list A) :
  0 <= skip -> 0 <= n -> 0 <= m ->
  int64 (skip + n) = true -> int64 (n + m) = true ->
  exists first second,
    page skip n l = Ok first
    /\ page (skip + n) m l = Ok second
    /\ page skip (n + m) l = Ok (first ++ second).
Proof.
  intros Hs Hn Hm Hsn Hnm.
  apply int64_spec in Hsn, Hnm.
  rewrite !page_ok by (apply int64_spec; lia).
  do 2 eexists; split; [reflexivity|]; split; [reflexivity|].
  destruct (Z.ltb_spec n 0); [lia|].
  destruct (Z.ltb_spec m 0); [lia|].
  destruct (Z.ltb_spec (n + m) 0); [lia|].
  rewrite !Z2Nat.inj_add by lia.
  rewrite (Nat.add_comm (Z.to_nat skip)), <- skipn_skipn.
  now rewrite firstn_add.
Qed.

Lemma page_length (skip lim : Z) (l : list A) :
  0 <= lim -> int64 skip = true -> int64 lim = true ->
  exists rows,
    page skip lim l = Ok rows
    /\ List.length rows
       = Nat.min (Z.to_nat lim) (List.length l - Z.to_nat skip).
Proof.
  intros Hl Hs Hi; rewrite page_ok by assumption.
  eexists; split; [reflexivity|].
  destruct (Z.ltb_spec lim 0); [lia|].
  now rewrite length_firstn, length_skipn.
Qed.

Lemma page_whole (lim : Z) (l : list A) :
  Z.of_nat (List.length l) <= lim -> int64 lim = true ->
  page 0 lim l = Ok l.
Proof.
  intros Hl Hi; rewrite page_ok by (assumption || reflexivity).
  f_equal; simpl.
  destruct (Z.ltb_spec lim 0); [reflexivity|].
  apply firstn_all2; lia.
Qed.

End Paging.

(** X1: consecutive pages of a listing join into one page.  For
    non-negative [skip], [n] and [m] whose sums [skip + n] and [n + m]
    are integers of the store, the three listings succeed, and the [n]
    rows after [skip] followed by the [m] rows after [skip + n] are the
    [n + m] rows after [skip], for the users, categories, books and the
    records of a book. *)
Theorem pages_concatenate :
  forall db skip n m,
    0 <= skip -> 0 <= n -> 0 <= m ->
    database.int64 (skip + n) = true -> database.int64 (n + m) = true ->
    (exists first second,
        main.read_users db skip n = Ok first
        /\ main.read_users db (skip + n) m = Ok second
        /\ main.read_users db skip (n + m) = Ok (first ++ second))
    /\ (exists first second,
           main.read_categories db skip n = Ok first
           /\ main.read_categories db (skip + n) m = Ok second
           /\ main.read_categories db skip (n + m) = Ok (first ++ second))
    /\ (exists first second,
           main.read_books db skip n = Ok first
           /\ main.read_books db (skip + n) m = Ok second
           /\ main.read_books db skip (n + m) = Ok (first ++ second))
    /\ (forall book_id,
           database.int64 book_id = true ->
           exists first second,
             main.read_records db book_id skip n = Ok first
             /\ main.read_records db book_id (skip + n) m = Ok second
             /\ main.read_records db book_id skip (n + m)
                = Ok (first ++ second)).
Proof.
  intros db skip n m Hs Hn Hm Hsn Hnm.
  unfold main.read_users, main.read_categories, main.read_books,
    main.read_records, crud.get_users, crud.get_categories, crud.get_books,
    crud.get_records.
  split; [now apply page_app|].
  split; [now apply page_app|].
  split; [now apply page_app|].
  intros book_id Hb; rewrite Hb; now apply page_app.
Qed.

Lemma pages_concatenate_witness :
  main.read_records examples.three_records 1 0 1
  = Ok [examples.record_of_book 1 1]
  /\ main.read_records examples.three_records 1 1 1
     = Ok [examples.record_of_book 3 1]
  /\ exists first second,
       main.read_records examples.three_records 1 0 1 = Ok first
       /\ main.read_records examples.three_records 1 (0 + 1) 1 = Ok second
       /\ main.read_records examples.three_records 1 0 (1 + 1)
          = Ok (first ++ second).
Proof.
  destruct (@pages_concatenate examples.three_records 0 1 1
              ltac:(lia) ltac:(lia) ltac:(lia) eq_refl eq_refl)
    as (_ & _ & _ & H).
  split; [reflexivity|].
  split; [reflexivity|].
  exact (H 1 eq_refl).
Defined.

(** X2: a listing whose [skip] and [limit] are integers of the store,
    [limit] non-negative, succeeds; it never returns more rows than
    [limit], and as many as are left after [skip] when fewer; with
    [skip] 0 and a [limit] of at least the size of the table it returns
    the whole table in table order. *)
Theorem listing_bounds :
  forall db skip lim,
    0 <= lim ->
    database.int64 skip = true -> database.int64 lim = true ->
    ((exists rows,
         main.read_users db skip lim = Ok rows
         /\ List.length rows
            = Nat.min (Z.to_nat lim)
                (List.length (models.users db) - Z.to_nat skip))
     /\ (exists rows,
            main.read_categories db skip lim = Ok rows
            /\ List.length rows
               = Nat.min (Z.to_nat lim)
                   (List.length (models.categories db) - Z.to_nat skip))
     /\ (exists rows,
            main.read_books db skip lim = Ok rows
            /\ List.length rows
               = Nat.min (Z.to_nat lim)
                   (List.length (models.books db) - Z.to_nat skip)))%nat
    /\ (Z.of_nat (List.length (models.users db)) <= lim ->
        main.read_users db 0 lim = Ok (models.users db))
    /\ (Z.of_nat (List.length (models.categories db)) <= lim ->
        main.read_categories db 0 lim = Ok (models.categories db))
    /\ (Z.of_nat (List.length (models.books db)) <= lim ->
        main.read_books db 0 lim = Ok (models.books db)).
Proof.
  intros db skip lim Hl Hs Hi.
  unfold main.read_users, main.read_categories, main.read_books,
    crud.get_users, crud.get_categories, crud.get_books.
  split; [split; [|split]; now apply page_length|].
  split; [|split]; intros H; now apply page_whole.
Qed.

Lemma listing_bounds_witness :
  main.read_users examples.seeded 0 100 = Ok (models.users examples.seeded)
  /\ exists rows,
       main.read_users examples.seeded 1 100 = Ok rows
       /\ List.length rows = 1%nat.
Proof.
  destruct (@listing_bounds examples.seeded 1 100 ltac:(lia) eq_refl eq_refl)
    as ((Hlen & _ & _) & _).
  destruct (@listing_bounds examples.seeded 0 100 ltac:(lia) eq_refl eq_refl)
    as (_ & Hall & _).
  split; [apply Hall; simpl; lia|].
  destruct Hlen as (rows & Hrows & Hlen).
  exists rows; split; [exact Hrows | rewrite Hlen; reflexivity].
Defined.

(** ** Reading one row *)

Section ReadById.

Variable A : Type.
Variable key : A -> Z.
Variable detail : string.

(** A handler whose path parameter carries no type. *)
Local Abbreviation read_or_404 found :=
  (match found with
   | None => Raise (HTTPException 404 detail)
   | Some row => Ok row
   end).

(** A handler whose path parameter has type [int]. *)
Local Abbreviation read_int_or_404 k found :=
  (match found with
   | None =>
       if database.int64 k then Raise (HTTPException 404 detail)
       else Raise OverflowError
   | Some row => Ok row
   end).

Lemma read_or_404_spec (k : Z) (l : list A) :
  (read_or_404 (find (fun x => key x =? k) l)
   = Raise (HTTPException 404 detail)
   <-> ~ In k (map key l))
  /\ (forall row,
         read_or_404 (find (fun x => key x =? k) l) = Ok row ->
         In row l /\ key row = k).
Proof.
  destruct (find (fun x => key x =? k) l) as [a|] eqn:E; simpl; split.
  - split; [discriminate|].
    intros H; exfalso; apply H.
    exact (@find_col_some _ _ Z.eqb key Z.eqb_spec _ _ _ E).
  - intros row H; injection H as H; subst row.
    now apply find_key_some.
  - split; [intros _ | reflexivity].
    now apply (@find_col_none _ _ Z.eqb key Z.eqb_spec).
  - discriminate.
Qed.

Lemma read_int_or_404_spec (k : Z) (l : list A) :
  (read_int_or_404 k (find (fun x => key x =? k) l)
   = Raise (HTTPException 404 detail)
   <-> database.int64 k = true /\ ~ In k (map key l))
  /\ (read_int_or_404 k (find (fun x => key x =? k) l)
      = Raise OverflowError
      <-> database.int64 k = false /\ ~ In k (map key l))
  /\ (forall row,
         read_int_or_404 k (find (fun x => key x =? k) l) = Ok row ->
         In row l /\ key row = k).
Proof.
  destruct (find (fun x => key x =? k) l) as [a|] eqn:E.
  - assert (Hin : In k (map key l))
      by exact (@find_col_some _ _ Z.eqb key Z.eqb_spec _ _ _ E).
    split; [|split].
    + split; [discriminate | tauto].
    + split; [discriminate | tauto].
    + intros row H; injection H as H; subst row.
      now apply find_key_some.
  - assert (Hin : ~ In k (map key l))
      by now apply (@find_col_none _ _ Z.eqb key Z.eqb_spec).
    destruct (database.int64 k); split; [| split | | split];
      try (split; [intros H | intros [H _]];
           solve [discriminate | tauto | reflexivity]);
      discriminate.
Qed.

(** A row appended under another key does not change what a lookup
    finds. *)
Lemma find_app_other (k : Z) (l : list A) (a : A) :
  key a <> k ->
  find (fun x => key x =? k) (l ++ [a]) = find (fun x => key x =? k) l.
Proof.
  intros Ha; induction l as [|x l IH]; simpl.
  - destruct (Z.eqb_spec (key a) k); [contradiction | reflexivity].
  - destruct (key x =? k); [reflexivity | assumption].
Qed.

End ReadById.

(** X3: the handlers that read one row by id.  GET /records/{record_id},
    whose path parameter carries no type, raises HTTP 404 exactly when
    no record has that id.  The handlers for users, categories and
    books, whose path parameter has type [int], raise HTTP 404 with
    their own message exactly when the id is an integer of the store
    that no row of the table has, and [OverflowError] exactly when it is
    outside the integers of the store and no row has it.  Otherwise each
    handler returns a stored row with that id.  After an id of the store
    has been deleted the handler raises 404. *)
Theorem read_by_id :
  forall db i,
    ((main.read_user db i = Raise (HTTPException 404 "User not found")
      <-> database.int64 i = true
          /\ ~ In i (map models.User_id (models.users db)))
     /\ (main.read_user db i = Raise OverflowError
         <-> database.int64 i = false
             /\ ~ In i (map models.User_id (models.users db)))
     /\ (forall row, main.read_user db i = Ok row ->
                     In row (models.users db) /\ models.User_id row = i)
     /\ (database.int64 i = true ->
         main.read_user (fst (crud.delete_user i db)) i
         = Raise (HTTPException 404 "User not found")))
    /\ ((main.read_record db i = Raise (HTTPException 404 "Record not found")
         <-> ~ In i (map models.Record_id (models.records db)))
        /\ (forall row, main.read_record db i = Ok row ->
                        In row (models.records db)
                        /\ models.Record_id row = i)
        /\ main.read_record (fst (main.delete_record i db)) i
           = Raise (HTTPException 404 "Record not found"))
    /\ ((main.read_category db i
         = Raise (HTTPException 404 "Category not found")
         <-> database.int64 i = true
             /\ ~ In i (map models.Category_id (models.categories db)))
        /\ (main.read_category db i = Raise OverflowError
            <-> database.int64 i = false
                /\ ~ In i (map models.Category_id (models.categories db)))
        /\ (forall row, main.read_category db i = Ok row ->
                        In row (models.categories db)
                        /\ models.Category_id row = i)
        /\ (database.int64 i = true ->
            main.read_category (fst (main.delete_category i db)) i
            = Raise (HTTPException 404 "Category not found")))
    /\ ((main.read_book db i = Raise (HTTPException 404 "Book not found")
         <-> database.int64 i = true
             /\ ~ In i (map models.Book_id (models.books db)))
        /\ (main.read_book db i = Raise OverflowError
            <-> database.int64 i = false
                /\ ~ In i (map models.Book_id (models.books db)))
        /\ (forall row, main.read_book db i = Ok row ->
                        In row (models.books db) /\ models.Book_id row = i)
        /\ (database.int64 i = true ->
            main.read_book (fst (main.delete_book i db)) i
            = Raise (HTTPException 404 "Book not found"))).
Proof.
  intros db i.
  split; [|split; [|split]].
  - destruct (read_int_or_404_spec models.User_id "User not found" i
                (models.users db)) as (H404 & Hover & Hrow).
    split; [exact H404|]; split; [exact Hover|]; split; [exact Hrow|].
    intros Hi; unfold main.read_user.
    destruct delete_user_idempotent with (db := db) (i := i)
      as (_ & H & _); rewrite H, Hi; reflexivity.
  - destruct (read_or_404_spec models.Record_id "Record not found" i
                (models.records db)) as (H404 & Hrow).
    split; [exact H404|]; split; [exact Hrow|].
    unfold main.read_record, main.delete_record.
    destruct delete_record_idempotent with (db := db) (i := i)
      as (_ & H & _); rewrite H; reflexivity.
  - destruct (read_int_or_404_spec models.Category_id "Category not found"
                i (models.categories db)) as (H404 & Hover & Hrow).
    split; [exact H404|]; split; [exact Hover|]; split; [exact Hrow|].
    intros Hi; unfold main.read_category, main.delete_category.
    destruct delete_category_idempotent with (db := db) (i := i)
      as (_ & H & _); rewrite H, Hi; reflexivity.
  - destruct (read_int_or_404_spec models.Book_id "Book not found" i
                (models.books db)) as (H404 & Hover & Hrow).
    split; [exact H404|]; split; [exact Hover|]; split; [exact Hrow|].
    intros Hi; unfold main.read_book.
    rewrite main_delete_book_eq by now right.
    destruct delete_book_idempotent with (db := db) (i := i)
      as (_ & H & _); rewrite H, Hi; reflexivity.
Qed.

Lemma read_by_id_witness :
  database.int64 7 = true
  /\ main.read_book examples.seeded 7
     = Raise (HTTPException 404 "Book not found")
  /\ main.read_book examples.seeded 9223372036854775808
     = Raise OverflowError
  /\ main.read_book (fst (main.delete_book 1 examples.seeded)) 1
     = Raise (HTTPException 404 "Book not found").
Proof.
  destruct (read_by_id examples.seeded 1) as (_ & _ & _ & _ & _ & _ & H).
  split; [reflexivity|].
  split; [reflexivity|].
  split; [reflexivity | exact (H eq_refl)].
Defined.

(** ** Creating categories and books *)

(** X4: creating a category whose [icon] and [parent_id], when given,
    are integers of the store succeeds.  It appends one row that carries
    the fields of the request under an id larger than every id of the
    table; that row is what reading the new id returns, and every other
    id reads as before.  When [icon] or [parent_id] is
    outside the integers of the store, the creation raises
    [OverflowError] and the store is the one it was given. *)
Theorem create_category_round_trip :
  forall db category,
    let fits :=
      database.int64 (schemas.icon category)
      && match schemas.parent_id category with
         | Some parent => database.int64 parent
         | None => true
         end in
    (fits = true ->
     exists row,
       main.create_category category db
       = (models.set_categories db (models.categories db ++ [row]), Ok row)
       /\ models.Category_parent_id row = schemas.parent_id category
       /\ models.Category_icon row = schemas.icon category
       /\ models.Category_cn_name row = schemas.cn_name category
       /\ models.Category_en_name row = schemas.en_name category
       /\ (forall c, In c (models.categories db) ->
                     models.Category_id c < models.Category_id row)
       /\ main.read_category (fst (main.create_category category db))
            (models.Category_id row)
          = Ok row
       /\ (forall j, j <> models.Category_id row ->
                     crud.get_category
                       (fst (main.create_category category db)) j
                     = crud.get_category db j))
    /\ (fits = false ->
        main.create_category category db = (db, Raise OverflowError)).
Proof.
  intros db category fits.
  unfold main.create_category, crud.create_category; fold fits.
  split; intros Hfits; rewrite Hfits; [|reflexivity].
  set (row := models.mkCategory
                (database.next_id
                   (map models.Category_id (models.categories db)))
                (schemas.parent_id category) (schemas.icon category)
                (schemas.cn_name category) (schemas.en_name category)).
  assert (Hfresh : ~ In (models.Category_id row)
                        (map models.Category_id (models.categories db)))
    by apply next_id_not_in.
  exists row.
  split; [reflexivity|].
  repeat (split; [reflexivity|]).
  split; [|split].
  - intros c Hc; apply next_id_fresh.
    now apply in_map.
  - unfold main.read_category, crud.get_category.
    cbn [fst models.categories models.set_categories].
    now rewrite (@find_appended _ _ Z.eqb models.Category_id Z.eqb_spec).
  - intros j Hj.
    unfold crud.get_category.
    cbn [fst models.categories models.set_categories].
    apply find_app_other; congruence.
Qed.

Lemma create_category_round_trip_witness :
  main.create_category (schemas.mkCategoryCreate None 1 "x" "Shop")
    models.empty
  = (models.set_categories models.empty
       [models.mkCategory 1 None 1 "x" "Shop"],
     Ok (models.mkCategory 1 None 1 "x" "Shop"))
  /\ main.create_category
       (schemas.mkCategoryCreate None 9223372036854775808 "x" "Shop")
       models.empty
     = (models.empty, Raise OverflowError).
Proof.
  destruct (create_category_round_trip models.empty
              (schemas.mkCategoryCreate None 9223372036854775808 "x" "Shop"))
    as [_ H].
  split; [reflexivity | exact (H eq_refl)].
Defined.

(** X5: creating a book whose request lists no members succeeds: it
    appends one row with the requested name under an id larger than every
    id of the table, which reading the new id returns, while every other
    id reads as before.  A request that lists members raises
    [AttributeError] and leaves the store as it was. *)
Theorem create_book_round_trip :
  forall db book,
    (schemas.members book = [] ->
     exists row,
       main.create_book book db
       = (models.set_books db (models.books db ++ [row]), Ok row)
       /\ models.Book_name row = schemas.name book
       /\ (forall b, In b (models.books db) ->
                     models.Book_id b < models.Book_id row)
       /\ main.read_book (fst (main.create_book book db))
            (models.Book_id row)
          = Ok row
       /\ (forall j, j <> models.Book_id row ->
                     crud.get_book (fst (main.create_book book db)) j
                     = crud.get_book db j))
    /\ (schemas.members book <> [] ->
        main.create_book book db = (db, Raise AttributeError)).
Proof.
  intros db book; unfold main.create_book, crud.create_book.
  destruct (schemas.members book) as [|m ms]; split;
    try congruence; try reflexivity.
  intros _.
  set (row := models.mkBook
                (database.next_id (map models.Book_id (models.books db)))
                (schemas.name book)).
  assert (Hfresh : ~ In (models.Book_id row)
                        (map models.Book_id (models.books db)))
    by apply next_id_not_in.
  exists row.
  split; [reflexivity|].
  split; [reflexivity|].
  split; [|split].
  - intros b Hb; apply next_id_fresh.
    now apply in_map.
  - unfold main.read_book, crud.get_book.
    cbn [fst models.books models.set_books]; fold row.
    now rewrite (@find_appended _ _ Z.eqb models.Book_id Z.eqb_spec).
  - intros j Hj; unfold crud.get_book.
    cbn [fst models.books models.set_books]; fold row.
    apply find_app_other; congruence.
Qed.

Lemma create_book_round_trip_witness :
  (exists row,
      main.create_book (schemas.mkBookCreate "trip" []) examples.seeded
      = (models.set_books examples.seeded
           (models.books examples.seeded ++ [row]), Ok row)
      /\ models.Book_id row = 2)
  /\ main.create_book
       (schemas.mkBookCreate "trip" [schemas.mkUser "a@b.c" "a" 1])
       examples.seeded
     = (examples.seeded, Raise AttributeError).
Proof.
  destruct (create_book_round_trip examples.seeded
              (schemas.mkBookCreate "trip" [])) as [H _].
  destruct (create_book_round_trip examples.seeded
              (schemas.mkBookCreate "trip" [schemas.mkUser "a@b.c" "a" 1]))
    as [_ H'].
  split; [|apply H'; discriminate].
  destruct (H eq_refl) as (row & Hrow & _).
  exists row; split; [exact Hrow|].
  injection Hrow as Hrow.
  rewrite <- Hrow; reflexivity.
Defined.

(** ** Signing up, logging in, and the current user *)

Section Sessions.
Import models.

Variable kdf : string -> string -> string.
Variable sign : string -> auth.payload -> string.
Variable SECRET_KEY : string.
Variable ACCESS_TOKEN_EXPIRE_MINUTES : Z.

Local Abbreviation login :=
  (main.login_for_access_token kdf sign SECRET_KEY
     ACCESS_TOKEN_EXPIRE_MINUTES).
Local Abbreviation get_current_user :=
  (crud.get_current_user sign SECRET_KEY).
Local Abbreviation bad_login :=
  (HTTPException 401 "Incorrect username or password").

(** What a successful [POST /users] says about the store. *)
Lemma main_create_user_ok (db db' : DB) (user : schemas.UserCreate)
    (salt : string) (u : User) :
  main.create_user kdf user salt db = (db', Ok u) ->
  u = service.new_user kdf db user salt
  /\ db' = set_users db (users db ++ [u])
  /\ ~ In (User_id u) (map User_id (users db))
  /\ ~ In (User_email u) (map User_email (users db))
  /\ ~ In (User_username u) (map User_username (users db)).
Proof.
  unfold main.create_user, bind, query.
  destruct (crud.get_user_by_email db (schemas.email user));
    [discriminate|].
  rewrite crud_create_user_eq.
  destruct (database.user_conflicts _ _) eqn:E; [discriminate|].
  intros H; injection H as H1 H2; subst db' u.
  apply user_conflicts_false in E.
  repeat split; tauto.
Qed.

(** What a successful login says about the store and the token. *)
Lemma login_ok (db : DB) (username password : string) (now : datetime)
    (access_token : auth.token) :
  login db username password now = Ok access_token ->
  exists user,
    crud.get_user_by_username db username = Some user
    /\ auth.verify_password kdf password (User_hashed_password user)
       = Ok true
    /\ access_token
       = auth.create_access_token sign SECRET_KEY username
           (60 * ACCESS_TOKEN_EXPIRE_MINUTES) now.
Proof.
  unfold main.login_for_access_token, crud.authenticate_user.
  destruct (crud.get_user_by_username db username) as [user|] eqn:Hu;
    [|discriminate].
  destruct (auth.verify_password kdf password (User_hashed_password user))
    as [[|]|e] eqn:Hv; try discriminate.
  intros H; injection H as H; subst access_token.
  destruct (get_user_by_username_some _ _ Hu) as [_ Hname].
  exists user; rewrite Hname; repeat split; assumption || reflexivity.
Qed.

(** X6: a user who has just signed up can log in.  When [POST /users]
    succeeds, authenticating with the username and password of the
    request against the resulting store returns the created user, and
    [POST /token] returns a token issued for that username. *)
Theorem signup_then_login :
  forall db db' user salt u now,
    main.create_user kdf user salt db = (db', Ok u) ->
    crud.authenticate_user kdf db' (schemas.username user)
      (schemas.password user)
    = Ok (Some u)
    /\ login db' (schemas.username user) (schemas.password user) now
       = Ok (auth.create_access_token sign SECRET_KEY
               (schemas.username user)
               (60 * ACCESS_TOKEN_EXPIRE_MINUTES) now).
Proof.
  intros db db' user salt u now H.
  apply main_create_user_ok in H.
  destruct H as (Hu & Hdb & _ & _ & Hname).
  assert (Hfind : crud.get_user_by_username db' (schemas.username user)
                  = Some u).
  { subst db'; unfold crud.get_user_by_username.
    cbn [users set_users].
    replace (schemas.username user) with (User_username u)
      by (subst u; reflexivity).
    now apply (@find_appended _ _ String.eqb User_username String.eqb_spec). }
  assert (Hauth : crud.authenticate_user kdf db' (schemas.username user)
                    (schemas.password user) = Ok (Some u)).
  { unfold crud.authenticate_user; rewrite Hfind.
    subst u; simpl; now rewrite String.eqb_refl. }
  split; [exact Hauth|].
  unfold main.login_for_access_token; rewrite Hauth.
  subst u; reflexivity.
Qed.

(** X7: [POST /token] does not tell an unknown username from a wrong
    password: both raise the same HTTP 401.  A token is returned only
    for a stored user whose stored hash verifies the password, and it is
    the token issued for that username with the configured lifetime. *)
Theorem login_rejections :
  forall db username password now,
    (crud.get_user_by_username db username = None ->
     login db username password now = Raise bad_login)
    /\ (forall user,
           crud.get_user_by_username db username = Some user ->
           auth.verify_password kdf password (User_hashed_password user)
           = Ok false ->
           login db username password now = Raise bad_login)
    /\ (forall access_token,
           login db username password now = Ok access_token ->
           exists user,
             crud.get_user_by_username db username = Some user
             /\ auth.verify_password kdf password
                  (User_hashed_password user)
                = Ok true
             /\ access_token
                = auth.create_access_token sign SECRET_KEY username
                    (60 * ACCESS_TOKEN_EXPIRE_MINUTES) now).
Proof.
  intros db username password now.
  split; [|split].
  - intros H; unfold main.login_for_access_token, crud.authenticate_user.
    now rewrite H.
  - intros user Hu Hv.
    unfold main.login_for_access_token, crud.authenticate_user.
    now rewrite Hu, Hv.
  - apply login_ok.
Qed.

(** X8: [get_current_user] resolves the token a login returns to the
    user that logged in, from the time of the login up to the configured
    number of minutes later, and raises the HTTP 401 credentials
    exception for it at every later time. *)
Theorem login_token_lifetime :
  forall db username password now access_token,
    0 <= ACCESS_TOKEN_EXPIRE_MINUTES ->
    login db username password now = Ok access_token ->
    exists user,
      crud.get_user_by_username db username = Some user
      /\ (forall t, t <= now + 60 * ACCESS_TOKEN_EXPIRE_MINUTES ->
                    get_current_user db access_token t = Ok user)
      /\ (forall t, now + 60 * ACCESS_TOKEN_EXPIRE_MINUTES < t ->
                    get_current_user db access_token t
                    = Raise crud.credentials_exception).
Proof.
  intros db username password now access_token Hmin H.
  apply login_ok in H; destruct H as (user & Hu & _ & Htok).
  exists user; split; [assumption|].
  subst access_token; unfold crud.get_current_user.
  split; intros t Ht.
  - rewrite token_subject_issued by assumption.
    now rewrite Hu.
  - unfold crud.token_subject, auth.create_access_token.
    rewrite jwt_decode_encode; cbn [auth.exp].
    destruct (Z.ltb_spec (now + 60 * ACCESS_TOKEN_EXPIRE_MINUTES) t);
      [reflexivity | lia].
Qed.

End Sessions.

Lemma signup_then_login_witness :
  exists db' u,
    main.create_user examples.toy_kdf
      (schemas.mkUserCreate "test@126.com" "test" "test") "pepper"
      examples.one_user
    = (db', Ok u)
    /\ crud.authenticate_user examples.toy_kdf db' "test" "test"
       = Ok (Some u).
Proof.
  do 2 eexists; split; [reflexivity|].
  refine (proj1 (@signup_then_login examples.toy_kdf examples.toy_sign
                   "secret" 30 examples.one_user _
                   (schemas.mkUserCreate "test@126.com" "test" "test")
                   "pepper" _ 1000 _)).
  reflexivity.
Defined.

Lemma login_rejections_witness :
  main.login_for_access_token examples.toy_kdf examples.toy_sign "secret" 30
    examples.one_user "nobody" "admin" 1000
  = Raise (HTTPException 401 "Incorrect username or password")
  /\ main.login_for_access_token examples.toy_kdf examples.toy_sign "secret"
       30 examples.one_user "admin" "wrong" 1000
     = Raise (HTTPException 401 "Incorrect username or password").
Proof.
  destruct (login_rejections examples.toy_kdf examples.toy_sign "secret" 30
              examples.one_user "nobody" "admin" 1000) as (Hnone & _).
  destruct (login_rejections examples.toy_kdf examples.toy_sign "secret" 30
              examples.one_user "admin" "wrong" 1000) as (_ & Hwrong & _).
  split; [apply Hnone; reflexivity|].
  apply (Hwrong examples.admin); reflexivity.
Defined.

Lemma login_token_lifetime_witness :
  exists access_token user,
    main.login_for_access_token examples.toy_kdf examples.toy_sign "secret" 30
      examples.seeded "admin" "admin" 1000
    = Ok access_token
    /\ models.User_id user = 1
    /\ crud.get_current_user examples.toy_sign "secret" examples.seeded
         access_token 2800
       = Ok user
    /\ crud.get_current_user examples.toy_sign "secret" examples.seeded
         access_token 2801
       = Raise crud.credentials_exception.
Proof.
  eexists.
  destruct (@login_token_lifetime examples.toy_kdf examples.toy_sign "secret"
              30 examples.seeded "admin" "admin" 1000 _ ltac:(lia) eq_refl)
    as (user & Hu & Hlive & Hdead).
  exists user.
  split; [reflexivity|].
  split; [injection Hu as Hu; rewrite <- Hu; reflexivity|].
  split; [apply Hlive; lia | apply Hdead; lia].
Defined.

(** ** Lookups under a unique column *)

Section UniqueLookup.

Variables (A K : Type) (eqb : K -> K -> bool) (col : A -> K).
Hypothesis eqb_spec : forall a b, reflect (a = b) (eqb a b).

Lemma NoDup_col_inj (l : list A) (a b : A) :
  NoDup (map col l) -> In a l -> In b l -> col a = col b -> a = b.
Proof.
  induction l as [|x l IH]; simpl; intros Hnd Ha Hb E; [contradiction|].
  inversion Hnd as [|? ? Hx Hl]; subst.
  destruct Ha as [Ha|Ha], Hb as [Hb|Hb]; subst.
  - reflexivity.
  - exfalso; apply Hx; rewrite E; now apply in_map.
  - exfalso; apply Hx; rewrite <- E; now apply in_map.
  - now apply IH.
Qed.

(** A stored row is the one a lookup of its own value finds. *)
Lemma find_unique (l : list A) (a : A) :
  NoDup (map col l) -> In a l ->
  find (fun x => eqb (col x) (col a)) l = Some a.
Proof.
  intros Hnd Ha.
  destruct (find (fun x => eqb (col x) (col a)) l) as [b|] eqn:E.
  - apply find_some in E; destruct E as [Hb E].
    destruct (eqb_spec (col b) (col a)) as [E'|]; [|discriminate].
    f_equal; now apply (NoDup_col_inj l).
  - exfalso.
    apply (@find_col_none _ _ eqb col eqb_spec) in E.
    apply E; now apply in_map.
Qed.

Lemma find_filter_keep (p q : A -> bool) (l : list A) (a : A) :
  find p l = Some a -> q a = true -> find p (filter q l) = Some a.
Proof.
  induction l as [|x l IH]; simpl; [discriminate|].
  destruct (p x) eqn:Hp.
  - intros H Hq; injection H as H; subst x.
    rewrite Hq; simpl; now rewrite Hp.
  - intros H Hq; destruct (q x); simpl; [rewrite Hp|]; auto.
Qed.

Lemma find_filter_gone (q : A -> bool) (l : list A) (a : A) :
  NoDup (map col l) -> In a l -> q a = false ->
  find (fun x => eqb (col x) (col a)) (filter q l) = None.
Proof.
  intros Hnd Ha Hq.
  apply (@find_col_none _ _ eqb col eqb_spec).
  intros H; apply in_map_iff in H; destruct H as (b & E & Hb).
  apply filter_In in Hb; destruct Hb as [Hb Hqb].
  assert (b = a) by now apply (NoDup_col_inj l).
  subst b; congruence.
Qed.

End UniqueLookup.

Section CurrentUser.
Import models.

Variable sign : string -> auth.payload -> string.
Variable SECRET_KEY : string.

Local Abbreviation get_current_user :=
  (crud.get_current_user sign SECRET_KEY).

Lemma get_current_user_ok (db : DB) (t : auth.token) (now : datetime)
    (u : User) :
  get_current_user db t now = Ok u ->
  In u (users db)
  /\ crud.token_subject sign SECRET_KEY t now = Ok (User_username u)
  /\ crud.get_user_by_username db (User_username u) = Some u.
Proof.
  unfold crud.get_current_user.
  destruct (crud.token_subject sign SECRET_KEY t now) as [name|e];
    [|discriminate].
  destruct (crud.get_user_by_username db name) as [v|] eqn:Hv;
    [|discriminate].
  intros H; injection H as H; subst v.
  destruct (get_user_by_username_some _ _ Hv) as [Hin Hname].
  subst name; auto.
Qed.

(** X9: deleting a user revokes its tokens and no others.  In a store
    whose usernames are pairwise distinct, a token that
    [get_current_user] resolves to a user raises the HTTP 401
    credentials exception once that user has been deleted, and still
    resolves to the same user after the deletion of any other id. *)
Theorem delete_user_revokes_token :
  forall db t now u,
    NoDup (map User_username (users db)) ->
    get_current_user db t now = Ok u ->
    get_current_user (fst (crud.delete_user (User_id u) db)) t now
    = Raise crud.credentials_exception
    /\ (forall i, i <> User_id u ->
                  get_current_user (fst (crud.delete_user i db)) t now
                  = Ok u).
Proof.
  intros db t now u Hnd H.
  apply get_current_user_ok in H; destruct H as (Hin & Hsub & Hfind).
  unfold crud.get_current_user; rewrite Hsub.
  split.
  - unfold crud.delete_user, bind, query.
    destruct (crud.get_user db (User_id u)) as [w|] eqn:Hw.
    + apply find_key_some in Hw; destruct Hw as [_ Hw].
      cbn [fst]; unfold crud.get_user_by_username.
      cbn [users set_users set_user_book].
      rewrite (@find_filter_gone _ _ String.eqb User_username String.eqb_spec);
        auto.
      rewrite Hw, Z.eqb_refl; reflexivity.
    + exfalso.
      apply (@find_col_none _ _ Z.eqb User_id Z.eqb_spec) in Hw.
      apply Hw; now apply in_map.
  - intros i Hi; unfold crud.delete_user, bind, query, ret.
    destruct (crud.get_user db i) as [w|] eqn:Hw; cbn [fst];
      [|now rewrite Hfind].
    apply find_key_some in Hw; destruct Hw as [_ Hw].
    unfold crud.get_user_by_username in *.
    cbn [users set_users set_user_book].
    rewrite (find_filter_keep _ _ _ Hfind); [reflexivity|].
    rewrite Hw; apply negb_true_iff, Z.eqb_neq; congruence.
Qed.

End CurrentUser.

Lemma delete_user_revokes_token_witness :
  crud.get_current_user examples.toy_sign "secret"
    (fst (crud.delete_user 1 examples.seeded))
    (auth.create_access_token examples.toy_sign "secret" "admin" 1800 1000)
    1500
  = Raise crud.credentials_exception
  /\ crud.get_current_user examples.toy_sign "secret"
       (fst (crud.delete_user 2 examples.seeded))
       (auth.create_access_token examples.toy_sign "secret" "admin" 1800
          1000)
       1500
     = Ok examples.admin.
Proof.
  assert (Hnd : NoDup (map models.User_username
                         (models.users examples.seeded))).
  { simpl; repeat constructor; simpl; intuition discriminate. }
  destruct (@delete_user_revokes_token examples.toy_sign "secret"
              examples.seeded
              (auth.create_access_token examples.toy_sign "secret" "admin"
                 1800 1000)
              1500 examples.admin Hnd eq_refl) as [Hgone Hkept].
  split; [exact Hgone | apply (Hkept 2); discriminate].
Defined.

(** ** Every table keeps its primary key unique *)

Section PrimaryKeys.
Import models database service.

Variable kdf : string -> string -> string.
Variable User_update :
  User -> schemas.UserCreate -> result (User * option User).
Variable Record_update :
  Record_ -> schemas.RecordCreate -> result (Record_ * option Record_).
Variable Category_update :
  Category -> schemas.CategoryCreate -> result (Category * option Category).
Variable Book_update :
  Book -> schemas.BookCreate -> result (Book * option Book).

Local Abbreviation run :=
  (service.run kdf User_update Record_update Category_update Book_update).
Local Abbreviation reachable :=
  (service.reachable kdf User_update Record_update Category_update
     Book_update).

(** The keys of the tables other than [users]. *)
Local Abbreviation other_keys db :=
  (NoDup (map Book_id (books db))
   /\ NoDup (map Category_id (categories db))
   /\ NoDup (map Record_id (records db))).

Lemma other_keys_same (db db' : DB) :
  books db' = books db -> categories db' = categories db ->
  records db' = records db ->
  other_keys db -> other_keys db'.
Proof. intros -> -> ->; auto. Qed.

Lemma detach_book_ids (b : Z) (l : list Record_) :
  map Record_id (map (crud.detach_book b) l) = map Record_id l.
Proof.
  rewrite map_map; apply map_ext; intros r; unfold crud.detach_book.
  destruct (Record_book_id r) as [x|]; [|reflexivity].
  destruct (x =? b); reflexivity.
Qed.

Lemma detach_category_ids (c : Z) (l : list Record_) :
  map Record_id (map (crud.detach_category c) l) = map Record_id l.
Proof.
  rewrite map_map; apply map_ext; intros r; unfold crud.detach_category.
  destruct (Record_category_id r) as [x|]; [|reflexivity].
  destruct (x =? c); reflexivity.
Qed.

Ltac same_table :=
  unfold main.create_user, crud.create_user, crud.delete_user,
    crud.update_user, main.create_record, crud.call_create_user_record,
    crud.create_user_record, crud.create_user_book, bind, query, raise, ret;
  repeat match goal with
         | |- context [match ?x with _ => _ end] => destruct x
         | |- context [if ?x then _ else _] => destruct x
         end;
  reflexivity.

Ltac keys_untouched db :=
  apply (@other_keys_same db);
  [ same_table | same_table | same_table | repeat split; assumption ].

Lemma run_keeps_other_keys (q : request) (db : DB) :
  other_keys db -> other_keys (run q db).
Proof.
  intros (Hb & Hc & Hr); destruct q; unfold service.run.
  - keys_untouched db.
  - keys_untouched db.
  - keys_untouched db.
  - keys_untouched db.
  - keys_untouched db.
  - rewrite create_user_record_raises; cbn; auto.
  - unfold crud.delete_record, bind, query, ret.
    destruct (crud.get_record db record_id); cbn; auto.
    repeat split; auto; now apply NoDup_col_filter.
  - unfold crud.update_record, bind, query, ret, raise.
    destruct (crud.get_record db record_id) as [r|]; cbn; auto.
    destruct (Record_update r record) as [[r' returned]|e]; cbn; auto.
    destruct (existsb _ _) eqn:E; cbn; auto.
    repeat split; auto.
    apply NoDup_col_updated; auto.
    now apply (@existsb_col _ _ Z.eqb Record_id Z.eqb_spec) in E.
  - unfold crud.create_category.
    destruct (_ && _); cbn; auto.
    repeat split; auto.
    apply NoDup_col_appended; [assumption | apply next_id_not_in].
  - unfold crud.delete_category, bind, query, ret.
    destruct (crud.get_category db category_id); cbn; auto.
    rewrite detach_category_ids.
    repeat split; auto; now apply NoDup_col_filter.
  - unfold crud.update_category, bind, query, ret, raise.
    destruct (crud.get_category db category_id) as [c|]; cbn; auto.
    destruct (Category_update c category) as [[c' returned]|e]; cbn; auto.
    destruct (existsb _ _) eqn:E; cbn; auto.
    repeat split; auto.
    apply NoDup_col_updated; auto.
    now apply (@existsb_col _ _ Z.eqb Category_id Z.eqb_spec) in E.
  - unfold crud.create_book, raise.
    destruct (schemas.members book); cbn; auto.
    repeat split; auto.
    apply NoDup_col_appended; [assumption | apply next_id_not_in].
  - unfold crud.delete_book, bind, query, ret.
    destruct (crud.get_book db book_id); cbn; auto.
    rewrite detach_book_ids.
    repeat split; auto; now apply NoDup_col_filter.
  - unfold crud.update_book, bind, query, ret, raise.
    destruct (crud.get_book db book_id) as [b|]; cbn; auto.
    destruct (Book_update b book) as [[b' returned]|e]; cbn; auto.
    destruct (existsb _ _) eqn:E; cbn; auto.
    repeat split; auto.
    apply NoDup_col_updated; auto.
    now apply (@existsb_col _ _ Z.eqb Book_id Z.eqb_spec) in E.
  - keys_untouched db.
Qed.

Lemma reachable_other_keys (db : DB) : reachable db -> other_keys db.
Proof.
  induction 1 as [|db q _ IH].
  - repeat split; constructor.
  - now apply run_keeps_other_keys.
Qed.

(** X10: in every state of the store the service reaches, a stored user
    is the one found by its id, by its email and by its username, and
    the one [GET /users/{user_id}] returns for its id. *)
Theorem stored_user_lookups :
  forall db u,
    reachable db ->
    In u (users db) ->
    crud.get_user db (User_id u) = Some u
    /\ crud.get_user_by_email db (User_email u) = Some u
    /\ crud.get_user_by_username db (User_username u) = Some u
    /\ main.read_user db (User_id u) = Ok u.
Proof.
  intros db u Hr Hin.
  apply reachable_unique_keys in Hr; destruct Hr as (Hid & He & Hu & _).
  assert (H : crud.get_user db (User_id u) = Some u)
    by now apply (@find_unique _ _ Z.eqb User_id Z.eqb_spec).
  split; [exact H|].
  split; [now apply (@find_unique _ _ String.eqb User_email String.eqb_spec)|].
  split;
    [now apply (@find_unique _ _ String.eqb User_username String.eqb_spec)|].
  unfold main.read_user; now rewrite H.
Qed.

(** X11: in every state of the store the service reaches, the ids of
    each of the four tables are pairwise distinct, so that every stored
    book and category is the one the lookup of its id finds. *)
Theorem primary_keys_unique :
  forall db,
    reachable db ->
    primary_keys db
    /\ (forall b, In b (books db) -> crud.get_book db (Book_id b) = Some b)
    /\ (forall c, In c (categories db) ->
                  crud.get_category db (Category_id c) = Some c).
Proof.
  intros db Hr.
  destruct (reachable_other_keys Hr) as (Hb & Hc & Hrec).
  apply reachable_unique_keys in Hr; destruct Hr as (Hid & _).
  split; [repeat split; assumption|].
  split; intros x Hx.
  - now apply (@find_unique _ _ Z.eqb Book_id Z.eqb_spec).
  - now apply (@find_unique _ _ Z.eqb Category_id Z.eqb_spec).
Qed.

End PrimaryKeys.

(** ** Start-up seeding *)

Section Seeding.
Import models database.

Variable kdf : string -> string -> string.

(** The email or the username of the first seeded user is in use. *)
Local Abbreviation admin_taken db :=
  (In "admin@126.com" (map User_email (users db))
   \/ In "admin" (map User_username (users db))).

Local Abbreviation seeding salts clock :=
  (_ <- crud.add_predefined_users kdf salts ;;
   _ <- crud.add_predefined_categories ;;
   _ <- crud.add_predefined_book ;;
   _ <- crud.add_predefined_user_book ;;
   crud.add_records_for_test clock).

Lemma startup_event_fst (salts : string * string) (clock : nat -> datetime)
    (db : DB) :
  fst (main.startup_event kdf salts clock db) = fst (seeding salts clock db).
Proof.
  unfold main.startup_event.
  destruct (seeding salts clock db) as [db' [a|[]]]; reflexivity.
Qed.

Section Keeps.

Variable P : DB -> Prop.

Lemma bind_keeps {A B} (m : M A) (k : A -> M B) :
  (forall db, P db -> P (fst (m db))) ->
  (forall a db, P db -> P (fst (k a db))) ->
  forall db, P db -> P (fst (bind m k db)).
Proof.
  intros Hm Hk db H; unfold bind.
  specialize (Hm db H).
  destruct (m db) as [db' [a|e]]; simpl in *; auto.
Qed.

Lemma for_each_keeps {A B} (f : A -> M B) (xs : list A) :
  (forall x db, P db -> P (fst (f x db))) ->
  forall db, P db -> P (fst (crud.for_each f xs db)).
Proof.
  intros Hf; induction xs as [|x xs IH]; intros db H; simpl; [assumption|].
  apply bind_keeps; auto.
Qed.

(** What every step of the seeding keeps, the seeding keeps. *)
Lemma seeding_keeps (salts : string * string) (clock : nat -> datetime) :
  (forall user salt db, P db -> P (fst (crud.create_user kdf user salt db))) ->
  (forall c db, P db -> P (fst (crud.create_category c db))) ->
  (forall b db, P db -> P (fst (crud.create_book b db))) ->
  (forall ub db, P db -> P (fst (crud.create_user_book ub db))) ->
  (forall r i now db, P db -> P (fst (crud.create_user_record r i now db))) ->
  forall db, P db -> P (fst (seeding salts clock db)).
Proof.
  intros Hu Hc Hb Hm Hr.
  apply bind_keeps; [apply for_each_keeps; intros x; apply Hu | intros _].
  apply bind_keeps; [apply for_each_keeps; apply Hc | intros _].
  apply bind_keeps; [apply for_each_keeps; apply Hb | intros _].
  apply bind_keeps; [apply for_each_keeps; apply Hm | intros _].
  apply for_each_keeps; intros x; apply Hr.
Qed.

Lemma bind_reaches {A B} (m : M A) (k : A -> M B) (db : DB) :
  P (fst (m db)) ->
  (forall a d, P d -> P (fst (k a d))) ->
  P (fst (bind m k db)).
Proof.
  intros Hm Hk; unfold bind.
  destruct (m db) as [db' [a|e]]; simpl in *; auto.
Qed.

End Keeps.

Lemma create_user_keeps_admin (user : schemas.UserCreate) (salt : string)
    (db : DB) :
  admin_taken db -> admin_taken (fst (crud.create_user kdf user salt db)).
Proof.
  rewrite crud_create_user_eq.
  destruct (user_conflicts _ _); cbn [fst users set_users]; [auto|].
  rewrite !map_app, !in_app_iff; tauto.
Qed.

Lemma seeding_taken (salts : string * string) (clock : nat -> datetime)
    (db : DB) :
  admin_taken db -> seeding salts clock db = (db, Raise IntegrityError).
Proof.
  intros H; unfold crud.add_predefined_users.
  cbn [crud.for_each]; unfold bind at 1 2.
  cbn [fst snd]; now rewrite crud_create_user_taken.
Qed.

Lemma create_admin_takes (password salt : string) (db : DB) :
  admin_taken
    (fst (crud.create_user kdf
            (schemas.mkUserCreate "admin@126.com" "admin" password) salt db)).
Proof.
  rewrite crud_create_user_eq.
  destruct (user_conflicts _ _) eqn:E; cbn [fst users set_users].
  - destruct (in_dec string_dec "admin@126.com"
                (map User_email (users db))) as [He|He]; [now left|].
    destruct (in_dec string_dec "admin"
                (map User_username (users db))) as [Hu|Hu]; [now right|].
    exfalso; revert E; apply not_true_iff_false, user_conflicts_false; cbn.
    split; [apply next_id_not_in | split; assumption].
  - left; rewrite map_app, in_app_iff; right; now left.
Qed.

Lemma seeding_takes_admin (salts : string * string)
    (clock : nat -> datetime) (db : DB) :
  admin_taken (fst (seeding salts clock db)).
Proof.
  apply (@bind_reaches (fun d => admin_taken d)).
  - unfold crud.add_predefined_users; cbn [crud.for_each].
    apply (@bind_reaches (fun d => admin_taken d));
      [apply create_admin_takes | intros _].
    apply (@bind_keeps (fun d => admin_taken d));
      [intros d; apply create_user_keeps_admin | intros _ d Hd; exact Hd].
  - intros _.
    apply (@bind_keeps (fun d => admin_taken d));
      [apply (@for_each_keeps (fun d => admin_taken d));
       intros c d; unfold crud.create_category;
       destruct (_ && _); auto
      | intros _].
    apply (@bind_keeps (fun d => admin_taken d));
      [apply (@for_each_keeps (fun d => admin_taken d));
       intros b d; unfold crud.create_book;
       destruct (schemas.members b); auto
      | intros _].
    apply (@bind_keeps (fun d => admin_taken d));
      [apply (@for_each_keeps (fun d => admin_taken d));
       intros ub d; unfold crud.create_user_book;
       destruct (existsb _ _); auto
      | intros _].
    apply (@for_each_keeps (fun d => admin_taken d)).
    intros r d; rewrite create_user_record_raises; auto.
Qed.

(** X12: the start-up seeding can be run again without effect.  Whatever
    the first run did, a second run of [startup_event] leaves the store
    as the first run left it; on a store in which the email or the
    username of the seeded [admin] is in use it changes nothing. *)
Theorem startup_event_idempotent :
  forall db salts clock salts' clock',
    fst (main.startup_event kdf salts' clock'
           (fst (main.startup_event kdf salts clock db)))
    = fst (main.startup_event kdf salts clock db)
    /\ (admin_taken db ->
        main.startup_event kdf salts clock db = (db, Ok tt)).
Proof.
  intros db salts clock salts' clock'; split.
  - rewrite !startup_event_fst.
    rewrite (seeding_taken salts' clock'); [reflexivity|].
    apply seeding_takes_admin.
  - intros H; unfold main.startup_event.
    now rewrite seeding_taken.
Qed.

End Seeding.

(** ** Records are never stored *)

Section NoRecords.
Import models database service.

Variable kdf : string -> string -> string.
Variable User_update :
  User -> schemas.UserCreate -> result (User * option User).
Variable Record_update :
  Record_ -> schemas.RecordCreate -> result (Record_ * option Record_).
Variable Category_update :
  Category -> schemas.CategoryCreate -> result (Category * option Category).
Variable Book_update :
  Book -> schemas.BookCreate -> result (Book * option Book).

Local Abbreviation run :=
  (service.run kdf User_update Record_update Category_update Book_update).
Local Abbreviation reachable :=
  (service.reachable kdf User_update Record_update Category_update
     Book_update).

Lemma startup_event_records (salts : string * string)
    (clock : nat -> datetime) (db : DB) :
  records (fst (main.startup_event kdf salts clock db)) = records db.
Proof.
  rewrite startup_event_fst.
  apply (@seeding_keeps kdf (fun d => records d = records db));
    try reflexivity.
  - intros user salt d Hd; rewrite crud_create_user_eq.
    destruct (user_conflicts _ _); exact Hd.
  - intros c d Hd; unfold crud.create_category.
    destruct (_ && _); exact Hd.
  - intros b d Hd; unfold crud.create_book.
    destruct (schemas.members b); exact Hd.
  - intros ub d Hd; unfold crud.create_user_book.
    destruct (existsb _ _); exact Hd.
  - intros r i now d Hd; rewrite create_user_record_raises; exact Hd.
Qed.

Lemma run_keeps_no_records (q : request) (db : DB) :
  records db = [] -> records (run q db) = [].
Proof.
  intros H; destruct q; unfold service.run.
  - unfold main.create_user, bind, query.
    destruct (crud.get_user_by_email db _); [exact H|].
    rewrite crud_create_user_eq; destruct (user_conflicts _ _); exact H.
  - rewrite crud_create_user_eq; destruct (user_conflicts _ _); exact H.
  - unfold crud.delete_user, bind, query.
    destruct (crud.get_user db user_id); exact H.
  - unfold crud.update_user, bind, query.
    destruct (crud.get_user db user_id) as [u|]; [|exact H].
    destruct (User_update u user) as [[u' returned]|e]; [|exact H].
    cbn; destruct (user_conflicts _ _); exact H.
  - exact H.
  - rewrite create_user_record_raises; exact H.
  - unfold crud.delete_record, bind, query, crud.get_record.
    rewrite H; exact H.
  - unfold crud.update_record, bind, query, crud.get_record.
    rewrite H; exact H.
  - unfold crud.create_category; destruct (_ && _); exact H.
  - unfold crud.delete_category, bind, query.
    destruct (crud.get_category db category_id); [|exact H].
    cbn; now rewrite H.
  - unfold crud.update_category, bind, query.
    destruct (crud.get_category db category_id) as [c|]; [|exact H].
    destruct (Category_update c category) as [[c' returned]|e]; [|exact H].
    cbn; destruct (existsb _ _); exact H.
  - unfold crud.create_book; destruct (schemas.members book); exact H.
  - unfold crud.delete_book, bind, query.
    destruct (crud.get_book db book_id); [|exact H].
    cbn; now rewrite H.
  - unfold crud.update_book, bind, query.
    destruct (crud.get_book db book_id) as [b|]; [|exact H].
    destruct (Book_update b book) as [[b' returned]|e]; [|exact H].
    cbn; destruct (existsb _ _); exact H.
  - unfold crud.create_user_book; destruct (existsb _ _); exact H.
Qed.

(** X13: the service never stores a record.  The start-up seeding leaves
    the records of any store as they were, and in every state reached
    from the empty store the table of records is empty, so that
    [GET /records] returns the empty list for every book, skip and
    limit among the integers of the store, and raises [OverflowError]
    when one of the three is not. *)
Theorem records_never_stored :
  (forall db salts clock,
      records (fst (main.startup_event kdf salts clock db)) = records db)
  /\ (forall db,
         reachable db ->
         records db = []
         /\ forall book_id skip lim,
              main.read_records db book_id skip lim
              = if int64 book_id && int64 skip && int64 lim
                then Ok []
                else Raise OverflowError).
Proof.
  split; [intros; apply startup_event_records|].
  intros db Hr.
  assert (H : records db = []).
  { induction Hr as [|db q _ IH]; [reflexivity|].
    now apply run_keeps_no_records. }
  split; [exact H|].
  intros book_id skip lim.
  unfold main.read_records, crud.get_records, offset, limit; rewrite H.
  destruct (int64 book_id), (int64 skip), (int64 lim); try reflexivity.
  simpl; rewrite skipn_nil.
  destruct (lim <? 0); [reflexivity | now rewrite firstn_nil].
Qed.

End NoRecords.

Lemma records_never_stored_witness :
  models.records examples.seeded = []
  /\ main.read_records examples.seeded 1 0 100 = Ok []
  /\ main.read_records examples.seeded 1 0 9223372036854775808
     = Raise OverflowError.
Proof.
  destruct (records_never_stored examples.toy_kdf
              (@examples.no_update _ _) (@examples.no_update _ _)
              (@examples.no_update _ _) (@examples.no_update _ _))
    as [_ H].
  destruct (H examples.seeded seeded_reachable) as [Hnone Hlist].
  split; [exact Hnone|].
  split; [exact (Hlist 1 0 100) | exact (Hlist 1 0 9223372036854775808)].
Defined.

(** ** What a deletion leaves behind *)

Section Leftovers.
Import models database.

Lemma in_book_detached (i : Z) (r : Record_) :
  crud.in_book i (crud.detach_book i r) = false.
Proof.
  unfold crud.in_book, crud.detach_book.
  destruct (Record_book_id r) as [b|] eqn:E; [|now rewrite E].
  destruct (Z.eqb_spec b i) as [Hb|Hb]; simpl; [reflexivity|].
  rewrite E; now apply Z.eqb_neq.
Qed.

Lemma filter_none {A} (p : A -> bool) (l : list A) :
  (forall x, In x l -> p x = false) -> filter p l = [].
Proof.
  induction l as [|x l IH]; simpl; intros H; [reflexivity|].
  rewrite (H x) by now left.
  apply IH; intros y Hy; apply H; now right.
Qed.

(** X14: deleting a category removes no other category and changes
    none.  In particular a category whose [parent_id] names the deleted
    id stays in the table as it was, although that id is no longer
    found. *)
Theorem delete_category_keeps_children :
  forall db i child,
    In child (categories db) ->
    Category_id child <> i ->
    In child (categories (fst (main.delete_category i db)))
    /\ (Category_parent_id child = Some i ->
        crud.get_category (fst (main.delete_category i db)) i = None).
Proof.
  intros db i child Hin Hid; split.
  - unfold main.delete_category, crud.delete_category, bind, query, ret.
    destruct (crud.get_category db i) as [c|] eqn:Hc; cbn; [|assumption].
    apply find_key_some in Hc; destruct Hc as [_ Hc].
    apply filter_In; split; [assumption|].
    rewrite Hc; now apply negb_true_iff, Z.eqb_neq.
  - intros _.
    now destruct delete_category_idempotent with (db := db) (i := i)
      as (_ & H & _).
Qed.

(** X15: deleting a stored book or category deletes none of the
    records: the table keeps the same record ids in the same order.  The
    records of a deleted book are detached from it: no record names the
    book, so listing the records of that book then returns the empty
    list for every skip and limit the listing can bind, and raises
    [OverflowError] for the others.  No record names a deleted
    category. *)
Theorem delete_detaches_records :
  forall db i,
    (crud.get_book db i <> None ->
     map Record_id (records (fst (main.delete_book i db)))
     = map Record_id (records db)
     /\ (forall r, In r (records (fst (main.delete_book i db))) ->
                   Record_book_id r <> Some i)
     /\ (forall skip lim,
            main.read_records (fst (main.delete_book i db)) i skip lim
            = if int64 i && int64 skip && int64 lim
              then Ok []
              else Raise OverflowError)
     /\ (forall r, In r (records db) -> Record_book_id r <> Some i ->
                   In r (records (fst (main.delete_book i db)))))
    /\ (crud.get_category db i <> None ->
        map Record_id (records (fst (main.delete_category i db)))
        = map Record_id (records db)
        /\ (forall r, In r (records (fst (main.delete_category i db))) ->
                      Record_category_id r <> Some i)
        /\ (forall r, In r (records db) -> Record_category_id r <> Some i ->
                      In r (records (fst (main.delete_category i db))))).
Proof.
  intros db i; split.
  - unfold main.delete_book, crud.delete_book, bind, query.
    destruct (crud.get_book db i) as [b|] eqn:Hb; [|congruence].
    apply find_key_some in Hb; destruct Hb as [_ Hb].
    intros _; cbn [fst records set_records set_user_book]; rewrite Hb.
    split; [apply detach_book_ids|].
    split.
    { intros x Hx Hn; apply in_map_iff in Hx.
      destruct Hx as (r & Hr & _).
      assert (H := in_book_detached i r); rewrite Hr in H.
      apply in_book_spec in Hn; congruence. }
    split.
    + intros skip lim; unfold main.read_records, crud.get_records.
      cbn [records set_records set_user_book].
      rewrite filter_none.
      * unfold offset, limit.
        destruct (int64 i), (int64 skip), (int64 lim); try reflexivity.
        simpl; rewrite skipn_nil.
        destruct (lim <? 0); [reflexivity | now rewrite firstn_nil].
      * intros x Hx; apply in_map_iff in Hx.
        destruct Hx as (r & Hr & _); subst x; apply in_book_detached.
    + intros r Hr Hne; apply in_map_iff; exists r; split; [|assumption].
      unfold crud.detach_book.
      destruct (Record_book_id r) as [x|]; [|reflexivity].
      destruct (Z.eqb_spec x i); [congruence | reflexivity].
  - unfold main.delete_category, crud.delete_category, bind, query.
    destruct (crud.get_category db i) as [c|] eqn:Hc; [|congruence].
    apply find_key_some in Hc; destruct Hc as [_ Hc].
    intros _; cbn [fst records set_records set_categories]; rewrite Hc.
    split; [apply detach_category_ids|].
    split.
    + intros x Hx; apply in_map_iff in Hx.
      destruct Hx as (r & Hr & _); subst x; unfold crud.detach_category.
      destruct (Record_category_id r) as [y|] eqn:E; [|now rewrite E].
      destruct (Z.eqb_spec y i); simpl; [discriminate|].
      rewrite E; congruence.
    + intros r Hr Hne; apply in_map_iff; exists r; split; [|assumption].
      unfold crud.detach_category.
      destruct (Record_category_id r) as [x|]; [|reflexivity].
      destruct (Z.eqb_spec x i); [congruence | reflexivity].
Qed.

(** X16: deleting a stored user or book deletes, from the association
    table, exactly the pairs that link it to a stored book or user; every
    other pair stays. *)
Theorem delete_removes_memberships :
  forall db i,
    (crud.get_user db i <> None ->
     forall m,
       In m (user_book (fst (crud.delete_user i db)))
       <-> In m (user_book db)
           /\ ~ (fst m = i /\ In (snd m) (map Book_id (books db))))
    /\ (crud.get_book db i <> None ->
        forall m,
          In m (user_book (fst (main.delete_book i db)))
          <-> In m (user_book db)
              /\ ~ (snd m = i /\ In (fst m) (map User_id (users db)))).
Proof.
  intros db i; split.
  - unfold crud.delete_user, bind, query.
    destruct (crud.get_user db i) as [u|] eqn:Hu; [|congruence].
    apply find_key_some in Hu; destruct Hu as [_ Hu].
    intros _ m; cbn [fst user_book set_user_book]; rewrite Hu, filter_In.
    rewrite negb_true_iff, andb_false_iff, Z.eqb_neq.
    rewrite (@existsb_col _ _ Z.eqb Book_id Z.eqb_spec).
    split; intros [H1 H2]; (split; [assumption|]).
    + intros [Ha Hb]; destruct H2; contradiction.
    + destruct (Z.eq_dec (fst m) i) as [E|E]; [right | now left].
      intros Hb; apply H2; now split.
  - unfold main.delete_book, crud.delete_book, bind, query.
    destruct (crud.get_book db i) as [b|] eqn:Hb; [|congruence].
    apply find_key_some in Hb; destruct Hb as [_ Hb].
    intros _ m; cbn [fst user_book set_user_book]; rewrite Hb, filter_In.
    rewrite negb_true_iff, andb_false_iff, Z.eqb_neq.
    rewrite (@existsb_col _ _ Z.eqb User_id Z.eqb_spec).
    split; intros [H1 H2]; (split; [assumption|]).
    + intros [Ha Hc]; destruct H2; contradiction.
    + destruct (Z.eq_dec (snd m) i) as [E|E]; [right | now left].
      intros Hc; apply H2; now split.
Qed.

End Leftovers.

Lemma delete_category_keeps_children_witness :
  In examples.game
    (models.categories (fst (main.delete_category 9 examples.ledger)))
  /\ crud.get_category (fst (main.delete_category 9 examples.ledger)) 9
     = None.
Proof.
  destruct (@delete_category_keeps_children examples.ledger 9 examples.game)
    as [Hin Hgone].
  - simpl; right; now left.
  - discriminate.
  - split; [exact Hin | apply Hgone; reflexivity].
Defined.

Lemma delete_detaches_records_witness :
  main.read_records (fst (main.delete_book 1 examples.ledger)) 1 0 100
  = Ok []
  /\ map models.Record_id
       (models.records (fst (main.delete_book 1 examples.ledger)))
     = [1; 2; 3].
Proof.
  destruct (delete_detaches_records examples.ledger 1) as [H _].
  destruct H as (Hids & _ & Hlist & _); [discriminate|].
  split; [exact (Hlist 0 100) | rewrite Hids; reflexivity].
Defined.

Lemma delete_removes_memberships_witness :
  In (1, 7) (models.user_book (fst (crud.delete_user 1 examples.ledger)))
  /\ (In (1, 1) (models.user_book (fst (crud.delete_user 1 examples.ledger)))
      -> False).
Proof.
  destruct (delete_removes_memberships examples.ledger 1) as [H _].
  assert (Hu : crud.get_user examples.ledger 1 <> None) by discriminate.
  split.
  - apply (H Hu (1, 7)); split; [simpl; auto|].
    intros [_ [E|[]]]; discriminate.
  - intros Hin; apply (H Hu (1, 1)) in Hin; destruct Hin as [_ Hn].
    apply Hn; split; [reflexivity | now left].
Defined.

(** ** Signing up leaves the other accounts alone *)

Section SignUp.
Import models database.

Variable kdf : string -> string -> string.

Lemma find_app_found {A} (p : A -> bool) (l suffix : list A) :
  find p l <> None -> find p (l ++ suffix) = find p l.
Proof.
  induction l as [|x l IH]; simpl; [congruence|].
  destruct (p x); auto.
Qed.

(** X17: [POST /users] never changes or hides a stored user and never
    touches another table.  Whatever it returns, the users of the
    resulting store are the users of the given store followed by at most
    one new row, the other tables are as they were, and every id, email
    and username that was found before is found as before. *)
Theorem create_user_keeps_others :
  forall db user salt,
    let db' := fst (main.create_user kdf user salt db) in
    (exists added,
        users db' = users db ++ added /\ (List.length added <= 1)%nat)
    /\ books db' = books db
    /\ categories db' = categories db
    /\ records db' = records db
    /\ user_book db' = user_book db
    /\ (forall i, crud.get_user db i <> None ->
                  crud.get_user db' i = crud.get_user db i)
    /\ (forall e, crud.get_user_by_email db e <> None ->
                  crud.get_user_by_email db' e = crud.get_user_by_email db e)
    /\ (forall n, crud.get_user_by_username db n <> None ->
                  crud.get_user_by_username db' n
                  = crud.get_user_by_username db n).
Proof.
  intros db user salt db'.
  assert (H : exists added,
             db' = set_users db (users db ++ added)
             /\ (List.length added <= 1)%nat).
  { unfold db', main.create_user, bind, query.
    destruct (crud.get_user_by_email db (schemas.email user)).
    - exists []; split; [|simpl; lia].
      cbn [fst]; unfold set_users; rewrite app_nil_r; now destruct db.
    - rewrite crud_create_user_eq; destruct (user_conflicts _ _).
      + exists []; split; [|simpl; lia].
        cbn [fst]; unfold set_users; rewrite app_nil_r; now destruct db.
      + eexists; split; [reflexivity | simpl; lia]. }
  destruct H as (added & Hdb & Hlen); rewrite Hdb.
  split; [exists added; split; [reflexivity | assumption]|].
  repeat (split; [reflexivity|]).
  unfold crud.get_user, crud.get_user_by_email, crud.get_user_by_username.
  cbn [users set_users].
  repeat split; intros k Hk; now apply find_app_found.
Qed.

End SignUp.

Lemma stored_user_lookups_witness :
  crud.get_user_by_email examples.seeded "test@126.com"
  = crud.get_user examples.seeded 2
  /\ main.read_user examples.seeded 1 = Ok examples.admin.
Proof.
  destruct (@stored_user_lookups examples.toy_kdf
              (@examples.no_update _ _) (@examples.no_update _ _)
              (@examples.no_update _ _) (@examples.no_update _ _)
              examples.seeded examples.admin seeded_reachable)
    as (_ & _ & _ & Hread); [simpl; now left|].
  split; [reflexivity | exact Hread].
Defined.

Lemma primary_keys_unique_witness :
  service.primary_keys examples.seeded
  /\ crud.get_book examples.seeded 1
     = Some (models.mkBook 1 "default").
Proof.
  destruct (@primary_keys_unique examples.toy_kdf
              (@examples.no_update _ _) (@examples.no_update _ _)
              (@examples.no_update _ _) (@examples.no_update _ _)
              examples.seeded seeded_reachable) as (Hkeys & Hbook & _).
  split; [exact Hkeys|].
  apply (Hbook (models.mkBook 1 "default")); simpl; now left.
Defined.

Lemma startup_event_idempotent_witness :
  main.startup_event examples.toy_kdf ("salt", "pepper") (fun _ => 0)
    examples.seeded
  = (examples.seeded, Ok tt).
Proof.
  destruct (startup_event_idempotent examples.toy_kdf examples.seeded
              ("salt", "pepper") (fun _ => 0) ("salt", "pepper")
              (fun _ => 0)) as [_ H].
  apply H; left; simpl; now left.
Defined.
